(** * The tell/ask module of the bot (sopel/modules/tell.py)

    A shallow embedding of the reminder store (load_reminders,
    dump_reminders), of the enqueue handler (f_remind) and of the delivery
    matcher (getReminders, message), followed by the properties of the
    specification that were checked against them.

    Conventions of the embedding.
    - A Python [str] is a [string]; every character is one [ascii].  The
      character classes Python consults ([str.strip] without argument,
      [str.lower]) are the ASCII ones: on text outside ASCII Python strips
      and folds further code points, which is not modelled.  The theorems
      that follow text through the file and back are stated for [plain]
      text, on which the embedding and Python agree.
    - The dictionary [bot.memory['reminders']] is an association list kept in
      insertion order, the order in which [dict.items()] and [dict.keys()]
      enumerate it.  It is a [defaultdict(list)]: subscripting it with an
      absent key inserts that key with an empty list.
    - [sopel.tools.Identifier] is outside the sources at hand; the
      comparisons [f_remind] makes on identifiers, and its lookups of an
      identifier in the dictionary, are case-insensitive, as the
      specification has them.  [message] looks up the keys it took from the
      dictionary itself.
    - The reminder file is its text as [io.open] presents it, [None] when
      [os.path.exists(bot.tell_filename)] is false.  [io.open] reads with
      universal newlines: a carriage return that was written comes back as
      a newline, so that the text written and the text read are the same
      for text without carriage return only.
    - The snapshot of the keys [message] goes through is sorted as [str]
      keys are.  The keys [f_remind] files are identifiers, whose order is
      outside the sources at hand: of the snapshot the theorems use only
      that it holds every key once.
    - A handler takes the bot state and its trigger and returns the new state
      with the list of messages it sent, oldest first.  The clock
      ([time.strftime], [format_time]) is an extra argument. *)

From Stdlib Require Import String Ascii List Arith Bool Lia Permutation.
Import ListNotations.
Open Scope string_scope.
Open Scope list_scope.

(** ** Python's string primitives, as far as tell.py uses them *)
Module PyStr.

Definition TAB : ascii := "009"%char.
Definition NL : ascii := "010"%char.

(** The literals ['\t'] and ['\n']. *)
Definition tab : string := String TAB EmptyString.
Definition newline : string := String NL EmptyString.

(** [c.isspace()] on ASCII: TAB, LF, VT, FF, CR, FS, GS, RS, US and space.
    Outside ASCII Python has further whitespace (U+0085, U+00A0, U+3000 and
    others), which [str.strip] removes as well and this test does not
    know. *)
Definition isspace (c : ascii) : bool :=
  let n := nat_of_ascii c in
  (((9 <=? n) && (n <=? 13)) || ((28 <=? n) && (n <=? 32)))%nat.

Definition lower_char (c : ascii) : ascii :=
  let n := nat_of_ascii c in
  if ((65 <=? n) && (n <=? 90))%nat then ascii_of_nat (n + 32) else c.

(** [s.lower()] *)
Fixpoint lower (s : string) : string :=
  match s with
  | EmptyString => EmptyString
  | String c s' => String (lower_char c) (lower s')
  end.

(** [c in chars] *)
Fixpoint char_in (c : ascii) (chars : string) : bool :=
  match chars with
  | EmptyString => false
  | String d chars' => Ascii.eqb c d || char_in c chars'
  end.

(** Removal of the leading characters that satisfy [p]. *)
Fixpoint lstrip_by (p : ascii -> bool) (s : string) : string :=
  match s with
  | EmptyString => EmptyString
  | String c s' => if p c then lstrip_by p s' else s
  end.

(** Removal of the trailing characters that satisfy [p]. *)
Fixpoint rstrip_by (p : ascii -> bool) (s : string) : string :=
  match s with
  | EmptyString => EmptyString
  | String c s' =>
      match rstrip_by p s' with
      | EmptyString => if p c then EmptyString else String c EmptyString
      | r => String c r
      end
  end.

(** [s.lstrip()], [s.rstrip()], [s.strip()] *)
Definition lstrip (s : string) : string := lstrip_by isspace s.
Definition rstrip (s : string) : string := rstrip_by isspace s.
Definition strip (s : string) : string := lstrip (rstrip s).

(** [s.lstrip(chars)], [s.rstrip(chars)] *)
Definition lstrip_chars (chars s : string) : string :=
  lstrip_by (fun c => char_in c chars) s.
Definition rstrip_chars (chars s : string) : string :=
  rstrip_by (fun c => char_in c chars) s.

(** [s.startswith(p)] *)
Fixpoint startswith (s p : string) {struct p} : bool :=
  match p, s with
  | EmptyString, _ => true
  | String _ _, EmptyString => false
  | String d p', String c s' => Ascii.eqb c d && startswith s' p'
  end.

(** [s.endswith(suffix)] *)
Fixpoint endswith (s suffix : string) : bool :=
  String.eqb s suffix
  || match s with
     | EmptyString => false
     | String _ s' => endswith s' suffix
     end.

(** [s[n:]] *)
Fixpoint drop (n : nat) (s : string) : string :=
  match n, s with
  | O, _ => s
  | S _, EmptyString => EmptyString
  | S n', String _ s' => drop n' s'
  end.

(** [s.partition(sep)] for a one-character separator: the text before the
    first [sep] and the text after it, [None] when [sep] does not occur. *)
Fixpoint break_at (sep : ascii) (s : string) : option (string * string) :=
  match s with
  | EmptyString => None
  | String c s' =>
      if Ascii.eqb c sep then Some (EmptyString, s')
      else match break_at sep s' with
           | Some (before, rest) => Some (String c before, rest)
           | None => None
           end
  end.

(** [s.split(sep, maxsplit)] for a one-character separator. *)
Fixpoint split_max (sep : ascii) (maxsplit : nat) (s : string) : list string :=
  match maxsplit with
  | O => [s]
  | S m =>
      match break_at sep s with
      | Some (before, rest) => before :: split_max sep m rest
      | None => [s]
      end
  end.

(** [s.split(sep)], every separator splitting. *)
Definition split (sep : ascii) (s : string) : list string :=
  split_max sep (String.length s) s.

(** [sep.join(parts)] *)
Definition join (sep : string) (parts : list string) : string :=
  String.concat sep parts.

(** The lines a text file yields when iterated: each keeps its newline, the
    last one has none when the text does not end in a newline.  [text] is
    the text as it is read: universal newlines have turned every carriage
    return of the file into a newline already, so a line ends at LF only. *)
Fixpoint readlines (text : string) : list string :=
  match text with
  | EmptyString => []
  | String c text' =>
      if Ascii.eqb c NL then String NL EmptyString :: readlines text'
      else match readlines text' with
           | [] => [String c EmptyString]
           | line :: lines => String c line :: lines
           end
  end.

(** [sorted(keys)] for keys that are [str]: by code point, smallest
    first.  Identifiers among the keys are ordered by their own comparison,
    which is outside the sources at hand. *)
Fixpoint insert_sorted (k : string) (l : list string) : list string :=
  match l with
  | [] => [k]
  | x :: l' => if String.leb k x then k :: l else x :: insert_sorted k l'
  end.

Definition sorted (l : list string) : list string :=
  fold_right insert_sorted [] l.

End PyStr.

(** ** A dictionary with string keys, in insertion order *)
Module Dict.

Section Ops.
Context {V : Type}.

Definition t := list (string * V).

(** [d.get(k)]; [None] stands for the [KeyError] of [d[k]]. *)
Fixpoint get (k : string) (d : t) : option V :=
  match d with
  | [] => None
  | (k', v) :: d' => if String.eqb k' k then Some v else get k d'
  end.

(** [k in d] *)
Definition mem (k : string) (d : t) : bool :=
  match get k d with Some _ => true | None => false end.

(** [d[k] = v]: a present key keeps its place, a new key goes last. *)
Fixpoint set (k : string) (v : V) (d : t) : t :=
  match d with
  | [] => [(k, v)]
  | (k', v') :: d' =>
      if String.eqb k' k then (k', v) :: d' else (k', v') :: set k v d'
  end.

(** The items whose key is not [k]. *)
Definition without (k : string) : string * V -> bool :=
  fun item => negb (String.eqb (fst item) k).

(** [del d[k]]; [None] is the [KeyError] raised for an absent key.  A key
    occurs once in a dictionary, so dropping the items of key [k] drops
    the one there is. *)
Definition del (k : string) (d : t) : option t :=
  if mem k d then Some (filter (without k) d) else None.

(** [d.keys()] *)
Definition keys (d : t) : list string := map fst d.

End Ops.

(** [d[k]] on a [defaultdict(list)]: the list under [k], which is inserted
    empty when [k] is absent. *)
Definition getitem_default {A : Type} (k : string) (d : @t (list A))
  : list A * @t (list A) :=
  match get k d with
  | Some l => (l, d)
  | None => ([], set k [] d)
  end.

End Dict.

(** ** tell.py *)
Module Tell.
Import PyStr.
Local Open Scope string_scope.

Definition MAXIMUM : nat := 4.

(** A stored reminder, the tuple [(teller, verb, timenow, msg)]. *)
Definition reminder : Type := string * string * string * string.

(** [bot.memory['reminders']]: recipient key to pending reminders. *)
Definition index : Type := @Dict.t (list reminder).

(** What a handler sends: [bot.reply(text)], and [bot.say(text)] or
    [bot.say(text, recipient)].  Without a recipient the bot says the text
    where the trigger came from. *)
Inductive event : Type :=
| Reply (text : string)
| Say (text : string) (recipient : option string).

(** The part of the bot the module reads and writes: [bot.nick], the text of
    the file at [bot.tell_filename] ([None] when the path does not exist)
    and [bot.memory['reminders']]. *)
Record Bot : Type := mkBot {
  nick : string;
  tell_file : option string;
  reminders : index
}.

(** The trigger: [trigger.nick], [trigger.sender] and the groups of the
    command match.  [group(1)] is the command word, [group(2)] the text
    after it and [group(3)] its first word, [None] when there is none;
    [f_remind] reads [group(2)] only once it has found [group(3)]. *)
Record Trigger : Type := mkTrigger {
  trigger_nick : string;
  trigger_sender : string;
  group1 : string;
  group2 : string;
  group3 : option string
}.

(** Python values met by the comparison that closes [message]. *)
Inductive pyval : Type :=
| PyInt (n : nat)
| PyList (l : list string).

(** [a != b]: values of different types are never equal. *)
Definition py_ne (a b : pyval) : bool :=
  match a, b with
  | PyInt x, PyInt y => negb (Nat.eqb x y)
  | PyList x, PyList y => if list_eq_dec string_dec x y then false else true
  | _, _ => true
  end.

(** Modelled from the spec: [sopel.tools.Identifier] is not part of the
    sources at hand; the specification describes it as a nickname with
    case-insensitive comparison.  An identifier is its text, and [a == b]
    on identifiers compares the lowered texts. *)
Definition Identifier_eq (a b : string) : bool :=
  String.eqb (lower a) (lower b).

(** *** The reminder store *)

(** [tellee, teller, verb, timenow, msg = line.split('\t', 4)]; [None] is the
    [ValueError] of an unpacking that does not find five parts. *)
Definition parse_line (line : string) : option (string * reminder) :=
  match split_max TAB 4 line with
  | [tellee; teller; verb; timenow; msg] =>
      Some (tellee, (teller, verb, timenow, msg))
  | _ => None
  end.

(** [result[tellee].append(r)] on the [defaultdict]. *)
Definition append_reminder (tellee : string) (r : reminder) (result : index)
  : index :=
  let '(l, result1) := Dict.getitem_default tellee result in
  Dict.set tellee (l ++ [r])%list result1.

(** One turn of the loop of [load_reminders]. *)
Definition load_line (result : index) (line : string) : index :=
  let line := strip line in
  if String.eqb line "" then result
  else match parse_line line with
       | Some (tellee, r) => append_reminder tellee r result
       | None => result
       end.

Definition load_reminders (file : string) : index :=
  fold_left load_line (readlines file) [].

(** ['\t'.join((tellee,) + tuple(reminder))] *)
Definition reminder_line (tellee : string) (r : reminder) : string :=
  let '(teller, verb, timenow, msg) := r in
  join tab [tellee; teller; verb; timenow; msg].

(** The strings [dump_reminders] writes, in order. *)
Definition dump_lines (data : index) : list string :=
  flat_map
    (fun item => map (fun r => reminder_line (fst item) r ++ newline)
                     (snd item))
    data.

(** The text of the file once [dump_reminders(filename, data)] closed it. *)
Definition dump_reminders (data : index) : string :=
  fold_right String.append "" (dump_lines data).

(** *** The enqueue handler *)

(** Modelled from the spec: [sopel.tools.Identifier] is not part of the
    sources at hand, and the dictionary looks an identifier up with the
    comparison of identifiers, which the specification gives as
    case-insensitive.  [stored_key tellee data] is the key that the lookup
    of the identifier [tellee] finds in [data]: a key that equals it case
    apart, [None] when there is none.  Where a file has put several such
    keys in the index, the first in insertion order is taken. *)
Definition stored_key (tellee : string) (data : index) : option string :=
  find (fun key => Identifier_eq key tellee) (Dict.keys data).

(** [tellee in data], for an identifier [tellee] *)
Definition Identifier_in (tellee : string) (data : index) : bool :=
  match stored_key tellee data with
  | Some _ => true
  | None => false
  end.

(** [data[tellee] = rs]: a key that is found keeps its text and its place,
    a new key is the identifier itself. *)
Definition Identifier_setitem (tellee : string) (rs : list reminder)
           (data : index) : index :=
  match stored_key tellee data with
  | Some key => Dict.set key rs data
  | None => Dict.set tellee rs data
  end.

(** [data[tellee].append(r)] *)
Definition Identifier_append (tellee : string) (r : reminder) (data : index)
  : index :=
  match stored_key tellee data with
  | Some key => append_reminder key r data
  | None => append_reminder tellee r data
  end.

Definition f_remind (bot : Bot) (trigger : Trigger) (timenow : string)
  : Bot * list event :=
  let teller := trigger_nick trigger in
  let verb := group1 trigger in
  match group3 trigger with
  | None | Some EmptyString => (bot, [Reply (verb ++ " whom?")])
  | Some g3 =>
      let tellee := rstrip_chars ".,:;" g3 in
      let msg := lstrip (lstrip_chars tellee (group2 trigger)) in
      if String.eqb msg "" then
        (bot, [Reply (verb ++ " " ++ tellee ++ " what?")])
      else
        match tell_file bot with
        | None => (bot, [])
        | Some _ =>
            if (30 <? String.length tellee)%nat then
              (bot, [Reply "That nickname is too long."])
            else if Identifier_eq tellee (nick bot) then
              (bot, [Reply "I'm here now; you can tell me whatever you want!"])
            else if negb (Identifier_eq teller tellee
                          || Identifier_eq (nick bot) tellee
                          || Identifier_eq "me" tellee) then
              let r : reminder := (teller, verb, timenow, msg) in
              let data :=
                if negb (Identifier_in tellee (reminders bot))
                then Identifier_setitem tellee [r] (reminders bot)
                else Identifier_append tellee r (reminders bot) in
              (mkBot (nick bot) (Some (dump_reminders data)) data,
               [Reply ("I'll pass that on when " ++ tellee ++ " is around.")])
            else if Identifier_eq teller tellee then
              (bot, [Say ("You can " ++ verb ++ " yourself that.") None])
            else
              (bot, [Say "Hey, I'm not as stupid as Monty you know!" None])
        end
  end.

(** *** The delivery matcher *)

(** [template % (tellee, datetime, teller, verb, tellee, msg)], after the
    date of today was cut from the front of [datetime]. *)
Definition format_reminder (tellee today : string) (r : reminder) : string :=
  let '(teller, verb, datetime, msg) := r in
  let datetime :=
    if startswith datetime today
    then drop (String.length today + 1) datetime
    else datetime in
  tellee ++ ": " ++ datetime ++ " <" ++ teller ++ "> " ++ verb ++ " "
         ++ tellee ++ " " ++ msg.

(** Lines 140-143 of [getReminders]: the lines of the reminders found
    under [key], and the index after the lookup. *)
Definition collect_lines (key tellee today : string) (data : index)
  : list string * index :=
  let '(found, data1) := Dict.getitem_default key data in
  (map (format_reminder tellee today) found, data1).

(** Lines 145-148: the deletion of [key], with its [KeyError] handler. *)
Definition delete_key (channel key : string) (data : index)
  : index * list event :=
  match Dict.del key data with
  | Some data' => (data', [])
  | None => (data, [Say "Er…" (Some channel)])
  end.

Definition getReminders (channel key tellee today : string) (data : index)
  : list string * index * list event :=
  let '(lines, data1) := collect_lines key tellee today data in
  let '(data2, said) := delete_key channel key data1 in
  (lines, data2, said).

(** The test the loop of [message] puts on a key, lines 168-172. *)
Definition key_matches (remkey tellee : string) : bool :=
  if negb (endswith remkey "*") || endswith remkey ":" then
    String.eqb (lower tellee) (lower remkey)
  else
    startswith (lower tellee) (rstrip_chars "*:" (lower remkey)).

(** One turn of the loop over [remkeys]; the state is the index, the list
    [reminders] of the function and what was said so far. *)
Definition match_step (channel tellee today : string)
           (st : index * list string * list event) (remkey : string)
  : index * list string * list event :=
  let '(data, collected, said) := st in
  if key_matches remkey tellee then
    let '(lines, data', said') := getReminders channel remkey tellee today data in
    (data', (collected ++ lines)%list, (said ++ said')%list)
  else st.

(** Lines 174-180: the first [MAXIMUM] lines where the trigger came from,
    the others to the speaker. *)
Definition deliver (tellee : string) (collected : list string) : list event :=
  (map (fun line => Say line None) (firstn MAXIMUM collected)
   ++ match skipn MAXIMUM collected with
      | [] => []
      | rest =>
          Say "Further messages sent privately" None
          :: map (fun line => Say line (Some tellee)) rest
      end)%list.

Definition message (bot : Bot) (trigger : Trigger) (today : string)
  : Bot * list event :=
  let tellee := trigger_nick trigger in
  let channel := trigger_sender trigger in
  match tell_file bot with
  | None => (bot, [])
  | Some file =>
      let remkeys := rev (sorted (Dict.keys (reminders bot))) in
      let '(data, collected, said) :=
        fold_left (match_step channel tellee today) remkeys
                  (reminders bot, [], []) in
      let file' :=
        if py_ne (PyInt (List.length (Dict.keys data))) (PyList remkeys)
        then dump_reminders data
        else file in
      (mkBot (nick bot) (Some file') data,
       (said ++ deliver tellee collected)%list)
  end.

(** The lines [message] collected in its list [reminders]. *)
Definition message_collected (bot : Bot) (trigger : Trigger) (today : string)
  : list string :=
  match tell_file bot with
  | None => []
  | Some _ =>
      snd (fst (fold_left
                  (match_step (trigger_sender trigger) (trigger_nick trigger)
                              today)
                  (rev (sorted (Dict.keys (reminders bot))))
                  (reminders bot, [], [])))
  end.

End Tell.

(** ** The vocabulary of the specification *)
Module Spec.
Import PyStr Tell.

(** "nickname case-insensitively starts with [prefix]" *)
Definition ci_startswith (nickname prefix : string) : bool :=
  startswith (lower nickname) (lower prefix).

(** "[a] case-insensitively equals [b]" *)
Definition ci_equal (a b : string) : Prop := lower a = lower b.

(** "the key with the [suffix] stripped": [s] without its ending [suffix],
    and [s] itself when it does not end so. *)
Fixpoint remove_suffix (suffix s : string) : string :=
  if String.eqb s suffix then EmptyString
  else match s with
       | EmptyString => EmptyString
       | String c s' => String c (remove_suffix suffix s')
       end.

(** "the line splits on tab into [n] fields" *)
Definition field_count (line : string) : nat :=
  List.length (split TAB line).

(** The number of occurrences of a character. *)
Fixpoint count_char (c : ascii) (s : string) : nat :=
  match s with
  | EmptyString => 0
  | String d s' => (if Ascii.eqb d c then 1 else 0) + count_char c s'
  end.

(** "each reminder reappears as its own line tagged with its recipient
    key": the pairs of a key and a reminder, in the order of the dump. *)
Definition records (data : index) : list (string * reminder) :=
  flat_map (fun item => map (pair (fst item)) (snd item)) data.

(** The turn of the loading loop on a line that parses to [record]. *)
Definition add_record (result : index) (record : string * reminder) : index :=
  append_reminder (fst record) (snd record) result.

(** The line [dump_reminders] writes for a record. *)
Definition record_line (record : string * reminder) : string :=
  reminder_line (fst record) (snd record) ++ newline.

(** A record that a reload reads back as it was dumped: its line has no
    newline, is left alone by [strip], is not empty and parses to the
    record. *)
Definition loadable (record : string * reminder) : Prop :=
  let line := reminder_line (fst record) (snd record) in
  count_char NL line = 0
  /\ strip (line ++ newline) = line
  /\ line <> ""
  /\ parse_line line = Some record.

(** An index as [load_reminders] builds them: no key twice, no empty list,
    loadable records only. *)
Definition loaded (data : index) : Prop :=
  NoDup (Dict.keys data)
  /\ Forall (fun item => snd item <> []) data
  /\ Forall loadable (records data).

(** "the recipient's exact-match key": the stored key that equals the
    recipient case apart, the recipient itself when no stored key does *)
Definition filed_key (tellee : string) (data : index) : string :=
  match stored_key tellee data with
  | Some key => key
  | None => tellee
  end.

(** "the reminders stored under [key]", none when the key is absent *)
Definition pending (key : string) (data : index) : list reminder :=
  match Dict.get key data with
  | Some found => found
  | None => []
  end.

(** "the lines collected for [key]": the formatted reminders of a key that
    matches the speaker, nothing for another key *)
Definition lines_for (tellee today : string) (data : index) (key : string)
  : list string :=
  if key_matches key tellee
  then map (format_reminder tellee today) (pending key data)
  else [].

(** "the item is delivered": its key is in the snapshot and matches the
    speaker *)
Definition taken (tellee : string) (remkeys : list string)
           (item : string * list reminder) : bool :=
  existsb (String.eqb (fst item)) remkeys && key_matches (fst item) tellee.


End Spec.

(** ** Sample data *)
Module Examples.
Import PyStr Tell.
Local Open Scope string_scope.

(** Five reminders wait for bob, one for al. *)
Definition five_for_bob : index :=
  [("bob", [("alice", "tell", "03 Nov 10:00Z", "one");
            ("alice", "tell", "03 Nov 10:01Z", "two");
            ("carol", "ask", "03 Nov 10:02Z", "three?");
            ("dave", "tell", "02 Nov 23:00Z", "four");
            ("erin", "tell", "03 Nov 10:04Z", "five")]);
   ("al", [("dave", "tell", "03 Nov 11:00Z", "ping")])].

Definition bot_five : Bot :=
  mkBot "sopel" (Some (dump_reminders five_for_bob)) five_for_bob.

(** A reminder is filed under the key [*]. *)
Definition bot_star : Bot :=
  let data : index := [("*", [("alice", "tell", "03 Nov 10:00Z", "hi all")])] in
  mkBot "sopel" (Some (dump_reminders data)) data.

(** The file holds one line, which has two fields only: nothing was loaded
    from it. *)
Definition short_line_file : string := "bob" ++ tab ++ "hello" ++ newline.
Definition bot_short_line : Bot :=
  mkBot "sopel" (Some short_line_file) (load_reminders short_line_file).

(** A line said in a channel, as the catch-all rule of [message] sees it. *)
Definition spoken (speaker text : string) : Trigger :=
  mkTrigger speaker "#chan" text "" None.

(** [teller: tell <words>], as the command [tell] sees it. *)
Definition tell_command (teller first_word words : string) : Trigger :=
  mkTrigger teller "#chan" "tell" words (Some first_word).

End Examples.

(** ** Start and stop of the module: [setup] and [shutdown] *)
Module Lifecycle.
Import PyStr Tell.
Local Open Scope string_scope.

(** The bot as [setup] and [shutdown] see it: [bot.nick], the text of the
    file at [bot.tell_filename] ([None] when the path does not exist),
    whether ['tell_lock'] is a key of [bot.memory], and the value under
    ['reminders'] when that is a key. *)
Record Host : Type := mkHost {
  host_nick : string;
  host_file : option string;
  tell_lock : bool;
  memory_reminders : option index
}.

(** [setup(bot)]: a missing file is created empty; the lock and the index
    are put in [bot.memory] when they are not there, the index being loaded
    from the file. *)
Definition setup (bot : Host) : Host :=
  let file := match host_file bot with
              | Some text => text
              | None => ""
              end in
  let lock := if negb (tell_lock bot) then true else tell_lock bot in
  let data := match memory_reminders bot with
              | Some data => data
              | None => load_reminders file
              end in
  mkHost (host_nick bot) (Some file) lock (Some data).







End Lifecycle.

(** ** The shape of what is stored *)
Module Shape.
Import PyStr Tell Spec Lifecycle.
Local Open Scope string_scope.

(** A record that goes through the file unharmed: its line has no newline,
    its first four fields have no tab, its key is not empty and does not
    start with whitespace, its message is not empty and does not end with
    whitespace. *)
Definition clean_record (record : string * reminder) : Prop :=
  let '(tellee, (teller, verb, timenow, msg)) := record in
  count_char NL (reminder_line tellee (teller, verb, timenow, msg)) = 0
  /\ count_char TAB tellee = 0
  /\ count_char TAB teller = 0
  /\ count_char TAB verb = 0
  /\ count_char TAB timenow = 0
  /\ tellee <> "" /\ lstrip tellee = tellee
  /\ msg <> "" /\ rstrip msg = msg.

(** An index as a dictionary of pending reminders should be: no key twice,
    no key with an empty list. *)
Definition well_keyed (data : index) : Prop :=
  NoDup (Dict.keys data) /\ Forall (fun item => snd item <> []) data.

(** A well-keyed index of clean records. *)
Definition tidy (data : index) : Prop :=
  well_keyed data /\ Forall clean_record (records data).

(** The records of the lines of a file that [load_reminders] does not
    skip, in the order of the file. *)
Definition parsed_records (file : string) : list (string * reminder) :=
  flat_map
    (fun line =>
       let line := strip line in
       if String.eqb line "" then []
       else match parse_line line with
            | Some record => [record]
            | None => []
            end)
    (readlines file).

(** The reminders of the records filed under [key], in their order. *)
Definition filed_under (key : string) (recs : list (string * reminder))
  : list reminder :=
  map snd (filter (fun record => String.eqb (fst record) key) recs).


(** Text that the embedding reads as Python does: ASCII characters only,
    where [isspace] and [lower] are those of Python, and no carriage return,
    which a text file gives back as a newline. *)
Definition plain_char (c : ascii) : bool :=
  (nat_of_ascii c <? 128)%nat && negb (Ascii.eqb c "013"%char).

Fixpoint plain (s : string) : bool :=
  match s with
  | EmptyString => true
  | String c s' => plain_char c && plain s'
  end.

(** A record whose line is plain. *)
Definition plain_record (record : string * reminder) : Prop :=
  plain (reminder_line (fst record) (snd record)) = true.

(** An index of plain records. *)
Definition plain_index (data : index) : Prop :=
  Forall plain_record (records data).




End Shape.

Import PyStr Tell Spec.

(** ** Facts on the string primitives *)
Section StringFacts.

Lemma startswith_spec (s p : string) :
  startswith s p = true <-> exists rest, s = (p ++ rest)%string.
Proof.
  revert s; induction p as [|d p IH]; intros s; simpl.
  - split; [intros _; now exists s | reflexivity].
  - destruct s as [|c s]; simpl.
    + split; [discriminate | intros [r Hr]; discriminate].
    + rewrite andb_true_iff, Ascii.eqb_eq, IH. split.
      * intros [-> [r ->]]. now exists r.
      * intros [r Hr]. injection Hr as -> ->. split; [reflexivity | now exists r].
Qed.

Lemma startswith_empty (s : string) : startswith s "" = true.
Proof. now destruct s. Qed.

Lemma endswith_spec (s suffix : string) :
  endswith s suffix = true <-> exists before, s = (before ++ suffix)%string.
Proof.
  induction s as [|c s IH].
  - cbn [endswith]. rewrite orb_false_r, String.eqb_eq. split.
    + intros <-. now exists "".
    + intros [[|d b] Hb]; simpl in Hb; [assumption | discriminate].
  - cbn [endswith]. rewrite orb_true_iff, String.eqb_eq, IH. split.
    + intros [<- | [b ->]]; [now exists "" | now exists (String c b)].
    + intros [[|d b] Hb]; simpl in Hb.
      * now left.
      * injection Hb as -> ->. right. now exists b.
Qed.

(** The last character of a string. *)
Lemma endswith_char_inv (s : string) (c d : ascii) :
  endswith s (String c "") = true -> endswith s (String d "") = true -> c = d.
Proof.
  induction s as [|a s IH]; cbn [endswith].
  - discriminate.
  - rewrite !orb_true_iff, !String.eqb_eq. intros [Hc | Hc] [Hd | Hd].
    + congruence.
    + injection Hc as _ ->. simpl in Hd. discriminate.
    + injection Hd as _ ->. simpl in Hc. discriminate.
    + now apply IH.
Qed.

Lemma endswith_app_r (s suffix tail : string) :
  endswith s (suffix ++ tail) = true -> endswith s tail = true.
Proof.
  rewrite !endswith_spec. intros [b ->]. exists (b ++ suffix)%string.
  induction b as [|c b IH]; simpl; [reflexivity | now rewrite IH].
Qed.

Lemma lower_char_star_colon (c : ascii) :
  char_in (lower_char c) "*:" = char_in c "*:".
Proof. destruct c as [[] [] [] [] [] [] [] []]; reflexivity. Qed.

Lemma lower_rstrip_by (p : ascii -> bool) :
  (forall c, p (lower_char c) = p c) ->
  forall s, rstrip_by p (lower s) = lower (rstrip_by p s).
Proof.
  intros Hp s. induction s as [|c s IH]; simpl; [reflexivity |].
  rewrite IH, Hp. destruct (rstrip_by p s); simpl; [| reflexivity].
  now destruct (p c).
Qed.

Lemma lower_rstrip_star_colon (s : string) :
  rstrip_chars "*:" (lower s) = lower (rstrip_chars "*:" s).
Proof. apply lower_rstrip_by, lower_char_star_colon. Qed.

End StringFacts.

(** ** How the matcher reads a key *)
Section KeyMatching.

Lemma key_matches_wildcard (key nickname : string) :
  endswith key "*" = true ->
  key_matches key nickname
  = startswith (lower nickname) (lower (rstrip_chars "*:" key)).
Proof.
  intros Hstar. unfold key_matches. rewrite Hstar.
  destruct (endswith key ":") eqn:Hcolon.
  - pose proof (endswith_char_inv _ _ _ Hstar Hcolon). discriminate.
  - simpl. now rewrite lower_rstrip_star_colon.
Qed.

Lemma key_matches_colon (key nickname : string) :
  endswith key ":" = true ->
  key_matches key nickname = String.eqb (lower nickname) (lower key).
Proof.
  intros Hcolon. unfold key_matches. rewrite Hcolon, orb_true_r. reflexivity.
Qed.

(** C1, the input at which the claim fails: the key [bob*:] ends in [*:]
    and the nickname [bob] equals the key without that suffix, yet the
    matcher does not match them. *)
Lemma key_star_colon_keeps_suffix :
  endswith "bob*:" "*:" = true
  /\ ci_equal "bob" (remove_suffix "*:" "bob*:")
  /\ key_matches "bob*:" "bob" = false.
Proof. repeat split. Qed.

(** C1, as the matcher has it: a key ending in [*] matches exactly the
    nicknames that start, case-insensitively, with the key stripped of its
    trailing [*] and [:] characters; a key ending in [*:] matches exactly
    the nicknames that equal, case-insensitively, the whole key, its [*:]
    included. *)
Theorem key_matches_by_ending (key nickname : string) :
  (endswith key "*" = true ->
   (key_matches key nickname = true
    <-> ci_startswith nickname (rstrip_chars "*:" key) = true))
  /\ (endswith key "*:" = true ->
      (key_matches key nickname = true <-> ci_equal nickname key)).
Proof.
  split.
  - intros Hstar. rewrite (key_matches_wildcard _ _ Hstar). reflexivity.
  - intros Hsc. rewrite key_matches_colon.
    + unfold ci_equal. apply String.eqb_eq.
    + apply (endswith_app_r key "*" ":"). exact Hsc.
Qed.

Lemma key_matches_by_ending_witness :
  (key_matches "bo:*" "Bobby" = true
   <-> ci_startswith "Bobby" (rstrip_chars "*:" "bo:*") = true)
  /\ (key_matches "bob*:" "BOB*:" = true <-> ci_equal "BOB*:" "bob*:").
Proof.
  split.
  - apply (proj1 (key_matches_by_ending "bo:*" "Bobby")). reflexivity.
  - apply (proj2 (key_matches_by_ending "bob*:" "BOB*:")). reflexivity.
Defined.

End KeyMatching.

(** ** Facts on the dictionary *)
Section DictFacts.
Context {V : Type}.
Implicit Types (d : @Dict.t V) (k : string) (v : V).

Lemma get_set_same k v d : Dict.get k (Dict.set k v d) = Some v.
Proof.
  induction d as [|[k' v'] d IH]; simpl.
  - now rewrite String.eqb_refl.
  - destruct (String.eqb k' k) eqn:E; simpl; now rewrite E.
Qed.

Lemma get_set_other k k' v d :
  k' <> k -> Dict.get k' (Dict.set k v d) = Dict.get k' d.
Proof.
  intros Hne. induction d as [|[k0 v0] d IH]; simpl.
  - apply String.eqb_neq in Hne. rewrite String.eqb_sym. now rewrite Hne.
  - destruct (String.eqb k0 k) eqn:E; simpl.
    + apply String.eqb_eq in E. subst k0.
      assert (String.eqb k k' = false) as -> by (apply String.eqb_neq; congruence).
      reflexivity.
    + now rewrite IH.
Qed.

Lemma get_without_same k d : Dict.get k (filter (Dict.without k) d) = None.
Proof.
  induction d as [|[k' v'] d IH]; simpl; [reflexivity |].
  unfold Dict.without at 1. simpl.
  destruct (String.eqb k' k) eqn:E; simpl; [exact IH | now rewrite E].
Qed.

Lemma get_without_other k k' d :
  k' <> k -> Dict.get k' (filter (Dict.without k) d) = Dict.get k' d.
Proof.
  intros Hne. induction d as [|[k0 v0] d IH]; simpl; [reflexivity |].
  unfold Dict.without at 1. simpl.
  destruct (String.eqb k0 k) eqn:E; simpl.
  - apply String.eqb_eq in E. subst k0.
    assert (String.eqb k k' = false) as -> by (apply String.eqb_neq; congruence).
    exact IH.
  - now rewrite IH.
Qed.

Lemma get_in k v d : Dict.get k d = Some v -> In (k, v) d.
Proof.
  induction d as [|[k' v'] d IH]; simpl; [discriminate |].
  destruct (String.eqb k' k) eqn:E.
  - apply String.eqb_eq in E. intros [= ->]. left. now subst.
  - intros H. right. now apply IH.
Qed.

Lemma get_none_not_in k d : Dict.get k d = None <-> ~ In k (Dict.keys d).
Proof.
  induction d as [|[k' v'] d IH]; simpl.
  - tauto.
  - destruct (String.eqb k' k) eqn:E.
    + apply String.eqb_eq in E. split; [discriminate | intros H; elim H; now left].
    + apply String.eqb_neq in E. rewrite IH. tauto.
Qed.

Lemma del_present k v d :
  Dict.get k d = Some v -> Dict.del k d = Some (filter (Dict.without k) d).
Proof. intros H. unfold Dict.del, Dict.mem. now rewrite H. Qed.

Lemma del_absent k d : Dict.get k d = None -> Dict.del k d = None.
Proof. intros H. unfold Dict.del, Dict.mem. now rewrite H. Qed.

Lemma without_absent k d :
  Dict.get k d = None -> filter (Dict.without k) d = d.
Proof.
  induction d as [|[k' v'] d IH]; simpl; [reflexivity |].
  unfold Dict.without at 1. simpl.
  destruct (String.eqb k' k); simpl; [discriminate | intros H; now rewrite IH].
Qed.

Lemma without_set_absent k v d :
  Dict.get k d = None -> filter (Dict.without k) (Dict.set k v d) = d.
Proof.
  induction d as [|[k' v'] d IH]; simpl.
  - intros _. unfold Dict.without. simpl. now rewrite String.eqb_refl.
  - destruct (String.eqb k' k) eqn:E; [discriminate |].
    intros H. simpl. unfold Dict.without at 1. simpl. rewrite E. simpl. now rewrite IH.
Qed.

Lemma keys_without k d :
  Dict.keys (filter (Dict.without k) d)
  = filter (fun k' => negb (String.eqb k' k)) (Dict.keys d).
Proof.
  induction d as [|[k' v'] d IH]; simpl; [reflexivity |].
  unfold Dict.without at 1. simpl. destruct (String.eqb k' k); simpl; now rewrite IH.
Qed.

Lemma keys_set_present k v v' d :
  Dict.get k d = Some v' -> Dict.keys (Dict.set k v d) = Dict.keys d.
Proof.
  induction d as [|[k0 v0] d IH]; simpl; [discriminate |].
  destruct (String.eqb k0 k) eqn:E; simpl; [reflexivity |].
  intros H. now rewrite IH.
Qed.

Lemma keys_set_absent k v d :
  Dict.get k d = None -> Dict.keys (Dict.set k v d) = (Dict.keys d ++ [k])%list.
Proof.
  induction d as [|[k0 v0] d IH]; simpl; [reflexivity |].
  destruct (String.eqb k0 k) eqn:E; simpl; [discriminate |].
  intros H. now rewrite IH.
Qed.

End DictFacts.

(** ** Delivery of one key *)
Section OneKey.
Variables channel tellee today : string.

Lemma getReminders_present key found data :
  Dict.get key data = Some found ->
  getReminders channel key tellee today data
  = (map (format_reminder tellee today) found,
     filter (Dict.without key) data, []).
Proof.
  intros H. unfold getReminders, collect_lines, Dict.getitem_default, delete_key.
  rewrite H. now rewrite (del_present _ _ _ H).
Qed.

(** A key that is not in the index when [getReminders] starts is put there
    by the lookup and taken out again: nothing is collected, nothing said. *)
Lemma getReminders_absent key data :
  Dict.get key data = None ->
  getReminders channel key tellee today data = ([], data, []).
Proof.
  intros H. unfold getReminders, collect_lines, Dict.getitem_default, delete_key.
  rewrite H. simpl.
  rewrite (del_present key [] (Dict.set key [] data)) by apply get_set_same.
  now rewrite without_set_absent.
Qed.

Lemma getReminders_spec key data :
  getReminders channel key tellee today data
  = (map (format_reminder tellee today) (pending key data),
     filter (Dict.without key) data, []).
Proof.
  unfold pending. destruct (Dict.get key data) as [found|] eqn:H.
  - now apply getReminders_present.
  - rewrite getReminders_absent by assumption.
    now rewrite without_absent.
Qed.

(** C3. When the matcher matches a key of the index, the turn of its loop
    collects one formatted line for every reminder stored under the key, in
    their order, and leaves an index that has no entry for the key; the
    entries of the other keys are as before. *)
Theorem match_step_delivers_whole_key
        (data : index) (collected : list string) (said : list event)
        (key : string) (found : list reminder) :
  Dict.get key data = Some found ->
  key_matches key tellee = true ->
  exists data',
    match_step channel tellee today (data, collected, said) key
    = (data', (collected ++ map (format_reminder tellee today) found)%list, said)
    /\ Dict.get key data' = None
    /\ Dict.mem key data' = false
    /\ forall k, k <> key -> Dict.get k data' = Dict.get k data.
Proof.
  intros Hget Hmatch. exists (filter (Dict.without key) data).
  unfold match_step. rewrite Hmatch, (getReminders_present _ _ _ Hget).
  rewrite app_nil_r. split; [reflexivity |].
  split; [apply get_without_same |].
  split; [unfold Dict.mem; now rewrite get_without_same |].
  intros k Hk. now apply get_without_other.
Qed.

End OneKey.

Lemma match_step_delivers_whole_key_witness :
  let data : index :=
    [("bob", [("alice", "tell", "03 Nov 10:00Z", "hello");
              ("carol", "ask", "02 Nov 09:00Z", "lunch?")]);
     ("al", [("dave", "tell", "03 Nov 11:00Z", "ping")])] in
  exists data',
    match_step "#chan" "Bob" "03 Nov" (data, [], []) "bob"
    = (data',
       ["Bob: 10:00Z <alice> tell Bob hello";
        "Bob: 02 Nov 09:00Z <carol> ask Bob lunch?"], [])
    /\ Dict.get "bob" data' = None
    /\ Dict.mem "bob" data' = false
    /\ forall k, k <> "bob" -> Dict.get k data' = Dict.get k data.
Proof.
  intros data.
  exact (match_step_delivers_whole_key "#chan" "Bob" "03 Nov" data [] [] "bob"
           _ eq_refl eq_refl).
Defined.

(** ** The snapshot of the keys *)
Section Snapshot.

Lemma insert_sorted_perm (k : string) (l : list string) :
  Permutation (insert_sorted k l) (k :: l).
Proof.
  induction l as [|x l IH]; simpl; [reflexivity |].
  destruct (String.leb k x); [reflexivity |].
  rewrite IH. apply perm_swap.
Qed.

Lemma sorted_perm (l : list string) : Permutation (sorted l) l.
Proof.
  induction l as [|x l IH]; simpl; [reflexivity |].
  rewrite insert_sorted_perm. now constructor.
Qed.

Lemma remkeys_perm (l : list string) : Permutation (rev (sorted l)) l.
Proof. rewrite <- Permutation_rev. apply sorted_perm. Qed.

Lemma remkeys_in (l : list string) (k : string) :
  In k (rev (sorted l)) <-> In k l.
Proof.
  split; apply Permutation_in; [| symmetry]; apply remkeys_perm.
Qed.

Lemma remkeys_nodup (l : list string) : NoDup l -> NoDup (rev (sorted l)).
Proof. apply Permutation_NoDup. symmetry. apply remkeys_perm. Qed.

End Snapshot.

(** ** The loop of the matcher *)
Section Loop.
Variables channel tellee today : string.

Lemma filter_twice {A : Type} (f g : A -> bool) (l : list A) :
  filter f (filter g l) = filter (fun x => g x && f x) l.
Proof.
  induction l as [|x l IH]; simpl; [reflexivity |].
  destruct (g x); simpl; [destruct (f x) |]; now rewrite IH.
Qed.

Lemma match_step_spec data collected said key :
  match_step channel tellee today (data, collected, said) key
  = (if key_matches key tellee then filter (Dict.without key) data else data,
     (collected ++ lines_for tellee today data key)%list, said).
Proof.
  unfold match_step, lines_for.
  destruct (key_matches key tellee).
  - now rewrite getReminders_spec, app_nil_r.
  - now rewrite app_nil_r.
Qed.

(** The loop itself never says anything. *)
Lemma match_loop_said remkeys st :
  snd (fold_left (match_step channel tellee today) remkeys st) = snd st.
Proof.
  revert st. induction remkeys as [|k ks IH]; intros [[data collected] said];
    cbn [fold_left]; [reflexivity |].
  rewrite match_step_spec, IH. reflexivity.
Qed.

Lemma pending_without key k data :
  k <> key -> pending k (filter (Dict.without key) data) = pending k data.
Proof. intros H. unfold pending. now rewrite get_without_other. Qed.

Lemma match_loop_spec remkeys :
  NoDup remkeys ->
  forall data collected said,
    fold_left (match_step channel tellee today) remkeys (data, collected, said)
    = (filter (fun item => negb (taken tellee remkeys item)) data,
       (collected ++ flat_map (lines_for tellee today data) remkeys)%list,
       said).
Proof.
  induction 1 as [|k ks Hk Hks IH]; intros data collected said;
    cbn [fold_left flat_map].
  - rewrite app_nil_r. f_equal. f_equal.
    induction data as [|item data IHd]; simpl; [reflexivity | now f_equal].
  - rewrite match_step_spec, IH, <- app_assoc.
    assert (Hdata :
      filter (fun item => negb (taken tellee ks item))
             (if key_matches k tellee then filter (Dict.without k) data else data)
      = filter (fun item => negb (taken tellee (k :: ks) item)) data).
    { destruct (key_matches k tellee) eqn:Hm.
      - rewrite filter_twice. apply filter_ext_in. intros [k' v'] _.
        unfold taken, Dict.without. simpl.
        destruct (String.eqb k' k) eqn:E; simpl; [| reflexivity].
        apply String.eqb_eq in E. subst k'. now rewrite Hm.
      - apply filter_ext_in. intros [k' v'] _. unfold taken. simpl.
        destruct (String.eqb k' k) eqn:E; simpl; [| reflexivity].
        apply String.eqb_eq in E. subst k'. rewrite Hm, ?andb_false_r.
        reflexivity. }
    assert (Hlines :
      flat_map (lines_for tellee today
                  (if key_matches k tellee
                   then filter (Dict.without k) data else data)) ks
      = flat_map (lines_for tellee today data) ks).
    { destruct (key_matches k tellee); [| reflexivity].
      clear IH Hks Hdata. revert Hk.
      induction ks as [|k' ks IHks]; intros Hk; simpl; [reflexivity |].
      rewrite IHks by (intros Hin; apply Hk; now right).
      f_equal. unfold lines_for. rewrite pending_without; [reflexivity |].
      intros ->. apply Hk. now left. }
    rewrite Hdata. f_equal. f_equal. apply f_equal. apply f_equal. exact Hlines.
Qed.

End Loop.

(** ** The matcher as a whole *)
Section Matcher.

Lemma message_running (bot : Bot) (trigger : Trigger) (today file : string) :
  tell_file bot = Some file ->
  exists data,
    message bot trigger today
    = (mkBot (nick bot) (Some (dump_reminders data)) data,
       deliver (trigger_nick trigger) (message_collected bot trigger today))
    /\ data = fst (fst (fold_left
                          (match_step (trigger_sender trigger)
                                      (trigger_nick trigger) today)
                          (rev (sorted (Dict.keys (reminders bot))))
                          (reminders bot, [], []))).
Proof.
  intros Hfile. unfold message, message_collected. rewrite Hfile.
  pose proof (match_loop_said (trigger_sender trigger) (trigger_nick trigger)
                today (rev (sorted (Dict.keys (reminders bot))))
                (reminders bot, [], [])) as Hsaid.
  destruct (fold_left _ _ _) as [[data collected] said]. simpl in Hsaid.
  subst said. exists data. split; reflexivity.
Qed.

Lemma message_disabled (bot : Bot) (trigger : Trigger) (today : string) :
  tell_file bot = None -> message bot trigger today = (bot, []).
Proof. intros H. unfold message. now rewrite H. Qed.

(** What [message] says is the delivery of the lines it collected. *)
Lemma message_says (bot : Bot) (trigger : Trigger) (today : string) :
  snd (message bot trigger today)
  = deliver (trigger_nick trigger) (message_collected bot trigger today).
Proof.
  destruct (tell_file bot) as [file|] eqn:Hfile.
  - destruct (message_running bot trigger today file Hfile) as [data [-> _]].
    reflexivity.
  - rewrite message_disabled by assumption. unfold message_collected.
    now rewrite Hfile.
Qed.

(** As long as the file exists, every run of [message] ends with the file
    holding the dump of the index, whether or not a key was removed. *)
Lemma message_always_dumps (bot : Bot) (trigger : Trigger) (today file : string) :
  tell_file bot = Some file ->
  tell_file (fst (message bot trigger today))
  = Some (dump_reminders (reminders (fst (message bot trigger today)))).
Proof.
  intros Hfile.
  destruct (message_running bot trigger today file Hfile) as [data [-> _]].
  reflexivity.
Qed.

Lemma message_index (bot : Bot) (trigger : Trigger) (today file : string) :
  tell_file bot = Some file ->
  NoDup (Dict.keys (reminders bot)) ->
  reminders (fst (message bot trigger today))
  = filter (fun item => negb (key_matches (fst item) (trigger_nick trigger)))
           (reminders bot).
Proof.
  intros Hfile Hnodup.
  destruct (message_running bot trigger today file Hfile) as [data [-> ->]].
  rewrite match_loop_spec by now apply remkeys_nodup.
  simpl. apply filter_ext_in. intros [k v] Hin. unfold taken. simpl.
  replace (existsb (String.eqb k) _) with true; [reflexivity |].
  symmetry. apply existsb_exists. exists k. split; [| apply String.eqb_refl].
  apply remkeys_in. unfold Dict.keys. now apply (in_map fst) in Hin.
Qed.

Lemma message_lines (bot : Bot) (trigger : Trigger) (today file : string) :
  tell_file bot = Some file ->
  NoDup (Dict.keys (reminders bot)) ->
  message_collected bot trigger today
  = flat_map (lines_for (trigger_nick trigger) today (reminders bot))
             (rev (sorted (Dict.keys (reminders bot)))).
Proof.
  intros Hfile Hnodup. unfold message_collected. rewrite Hfile.
  rewrite match_loop_spec by now apply remkeys_nodup. reflexivity.
Qed.

(** *** Delivery, lines 174-180 *)

Lemma deliver_few (tellee : string) (lines : list string) :
  List.length lines <= MAXIMUM ->
  deliver tellee lines = map (fun line => Say line None) lines.
Proof.
  intros Hn. unfold deliver.
  rewrite skipn_all2, firstn_all2 by assumption. apply app_nil_r.
Qed.

Lemma deliver_many (tellee : string) (lines : list string) :
  MAXIMUM < List.length lines ->
  deliver tellee lines
  = (map (fun line => Say line None) (firstn MAXIMUM lines)
     ++ Say "Further messages sent privately" None
     :: map (fun line => Say line (Some tellee)) (skipn MAXIMUM lines))%list.
Proof.
  intros Hn. unfold deliver.
  destruct (skipn MAXIMUM lines) as [|l rest] eqn:Hskip; [| reflexivity].
  apply (f_equal (@List.length string)) in Hskip.
  rewrite length_skipn in Hskip. simpl in Hskip. lia.
Qed.

Lemma deliver_covers (tellee line : string) (lines : list string) :
  In line lines -> exists recipient, In (Say line recipient) (deliver tellee lines).
Proof.
  intros Hin. rewrite <- (firstn_skipn MAXIMUM lines) in Hin.
  apply in_app_or in Hin. unfold deliver. destruct Hin as [Hin | Hin].
  - exists None. apply in_or_app. left.
    now apply (in_map (fun l => Say l None)) in Hin.
  - exists (Some tellee). apply in_or_app. right.
    destruct (skipn MAXIMUM lines) as [|l rest]; [contradiction |].
    right. now apply (in_map (fun l => Say l (Some tellee))) in Hin.
Qed.

(** C5. Of the n lines the matcher collected, the first min(n, 4) are said
    where the trigger came from, in order; when n is above 4 the notice
    follows them and the lines from the fifth on go to the speaker, in
    order; nothing else is said. *)
Theorem message_delivery (bot : Bot) (trigger : Trigger) (today : string) :
  let lines := message_collected bot trigger today in
  let out := snd (message bot trigger today) in
  let n := List.length lines in
  (forall i line,
      i < MAXIMUM -> nth_error lines i = Some line ->
      nth_error out i = Some (Say line None))
  /\ (n <= MAXIMUM -> List.length out = n)
  /\ (MAXIMUM < n ->
      nth_error out MAXIMUM = Some (Say "Further messages sent privately" None)
      /\ List.length out = S n)
  /\ (forall i line,
         MAXIMUM <= i -> nth_error lines i = Some line ->
         nth_error out (S i) = Some (Say line (Some (trigger_nick trigger)))).
Proof.
  intros lines out n. subst out. rewrite message_says. fold lines.
  set (tellee := trigger_nick trigger).
  assert (Hfirst : List.length (map (fun l => Say l None) (firstn MAXIMUM lines))
                   = Nat.min MAXIMUM n).
  { now rewrite length_map, length_firstn. }
  repeat split.
  - intros i line Hi Hnth.
    assert (i < n) by (apply nth_error_Some; congruence).
    assert (Hpub : nth_error (map (fun l => Say l None) (firstn MAXIMUM lines)) i
                   = Some (Say line None)).
    { rewrite nth_error_map, nth_error_firstn.
      apply Nat.ltb_lt in Hi. rewrite Hi, Hnth. reflexivity. }
    unfold deliver. rewrite nth_error_app1; [exact Hpub |].
    rewrite Hfirst. lia.
  - intros Hn. rewrite deliver_few by assumption. apply length_map.
  - rewrite deliver_many by assumption.
    rewrite nth_error_app2 by (rewrite Hfirst; lia).
    rewrite Hfirst. replace (MAXIMUM - Nat.min MAXIMUM n) with 0 by lia.
    reflexivity.
  - rewrite deliver_many by assumption.
    rewrite length_app, Hfirst. cbn [Datatypes.length].
    rewrite length_map, length_skipn. fold n. lia.
  - intros i line Hi Hnth.
    assert (i < n) by (apply nth_error_Some; congruence).
    rewrite deliver_many by (fold n; lia).
    rewrite nth_error_app2 by (rewrite Hfirst; lia).
    rewrite Hfirst. replace (S i - Nat.min MAXIMUM n) with (S (i - MAXIMUM)) by lia.
    cbn [nth_error]. rewrite nth_error_map, nth_error_skipn.
    replace (MAXIMUM + (i - MAXIMUM)) with i by lia. now rewrite Hnth.
Qed.

End Matcher.

Import Examples.

Lemma message_delivery_witness :
  let out := snd (message bot_five (spoken "bob" "hello") "03 Nov") in
  nth_error out 0 = Some (Say "bob: 10:00Z <alice> tell bob one" None)
  /\ nth_error out 3 = Some (Say "bob: 02 Nov 23:00Z <dave> tell bob four" None)
  /\ nth_error out MAXIMUM = Some (Say "Further messages sent privately" None)
  /\ nth_error out 5 = Some (Say "bob: 10:04Z <erin> tell bob five" (Some "bob"))
  /\ List.length out = 6.
Proof.
  intros out.
  destruct (message_delivery bot_five (spoken "bob" "hello") "03 Nov")
    as [Hpublic [_ [Hnotice Hprivate]]].
  assert (Hmany : MAXIMUM < List.length
                    (message_collected bot_five (spoken "bob" "hello") "03 Nov"))
    by (vm_compute; lia).
  destruct (Hnotice Hmany) as [Hn Hlen].
  split; [apply Hpublic; [vm_compute; lia | reflexivity] |].
  split; [apply Hpublic; [vm_compute; lia | reflexivity] |].
  split; [exact Hn |].
  split; [apply (Hprivate 4); [vm_compute; lia | reflexivity] | exact Hlen].
Defined.

(** C6, the code at the failing input.  The file holds one line with two
    fields, so the index loaded from it is empty; alice speaks, no key
    matches and none is removed, and the file is rewritten all the same:
    it is empty afterwards. *)
Lemma message_rewrites_file_without_removal :
  let bot := bot_short_line in
  let bot' := fst (message bot (spoken "alice" "hello") "03 Nov") in
  reminders bot = []
  /\ reminders bot' = reminders bot
  /\ List.length (Dict.keys (reminders bot'))
     = List.length (Dict.keys (reminders bot))
  /\ tell_file bot = Some short_line_file
  /\ tell_file bot' = Some ""
  /\ tell_file bot' <> tell_file bot.
Proof. vm_compute. repeat split. discriminate. Qed.

Section EmptyPrefix.

(** C10, the input at which the claim fails: nothing is left of the key
    [*:] once its trailing [*] and [:] are stripped, yet it does not match
    the nickname [bob]. *)
Lemma star_colon_key_is_exact :
  rstrip_chars "*:" "*:" = ""
  /\ key_matches "*:" "bob" = false.
Proof. split; reflexivity. Qed.

Lemma get_taken_none (tellee key : string) (remkeys : list string) (data : index) :
  In key remkeys -> key_matches key tellee = true ->
  Dict.get key (filter (fun item => negb (taken tellee remkeys item)) data) = None.
Proof.
  intros Hin Hm. induction data as [|[k v] data IH]; simpl; [reflexivity |].
  destruct (taken tellee remkeys (k, v)) eqn:Ht; simpl; [exact IH |].
  destruct (String.eqb k key) eqn:E; [| exact IH].
  apply String.eqb_eq in E. subst k. unfold taken in Ht. simpl in Ht.
  rewrite Hm, andb_true_r in Ht.
  assert (existsb (String.eqb key) remkeys = true) as Hex.
  { apply existsb_exists. exists key. split; [assumption | apply String.eqb_refl]. }
  congruence.
Qed.

(** C10, as the matcher has it.  A stored key that ends in [*] and of
    which nothing is left once the trailing [*] and [:] are stripped
    matches every nickname: whoever speaks next while the file exists, the
    run of [message] sends every reminder stored under the key and leaves
    an index without the key. *)
Theorem empty_prefix_wildcard_goes_to_anyone
        (bot : Bot) (trigger : Trigger) (today file key : string)
        (found : list reminder) :
  tell_file bot = Some file ->
  NoDup (Dict.keys (reminders bot)) ->
  Dict.get key (reminders bot) = Some found ->
  endswith key "*" = true ->
  rstrip_chars "*:" key = "" ->
  let tellee := trigger_nick trigger in
  let result := message bot trigger today in
  key_matches key tellee = true
  /\ Dict.get key (reminders (fst result)) = None
  /\ forall r, In r found ->
       exists recipient,
         In (Say (format_reminder tellee today r) recipient) (snd result).
Proof.
  intros Hfile Hnodup Hget Hstar Hempty tellee result.
  assert (Hm : key_matches key tellee = true).
  { rewrite (key_matches_wildcard _ _ Hstar), Hempty. apply startswith_empty. }
  assert (Hin : In key (rev (sorted (Dict.keys (reminders bot))))).
  { apply remkeys_in. apply get_in in Hget.
    now apply (in_map fst) in Hget. }
  split; [exact Hm |]. split.
  - subst result.
    destruct (message_running bot trigger today file Hfile) as [data [-> ->]].
    rewrite match_loop_spec by now apply remkeys_nodup.
    simpl. now apply get_taken_none.
  - intros r Hr. subst result. rewrite message_says.
    apply deliver_covers.
    rewrite (message_lines bot trigger today file Hfile Hnodup).
    apply in_flat_map. exists key. split; [exact Hin |].
    unfold lines_for. fold tellee. rewrite Hm. unfold pending. rewrite Hget.
    now apply in_map.
Qed.

End EmptyPrefix.

Lemma empty_prefix_wildcard_goes_to_anyone_witness :
  let result := message bot_star (spoken "zoe" "good morning") "03 Nov" in
  key_matches "*" "zoe" = true
  /\ Dict.get "*" (reminders (fst result)) = None
  /\ forall r, In r [("alice", "tell", "03 Nov 10:00Z", "hi all")] ->
       exists recipient,
         In (Say (format_reminder "zoe" "03 Nov" r) recipient) (snd result).
Proof.
  apply (empty_prefix_wildcard_goes_to_anyone
           bot_star (spoken "zoe" "good morning") "03 Nov"
           (dump_reminders (reminders bot_star)) "*"
           [("alice", "tell", "03 Nov 10:00Z", "hi all")]).
  - reflexivity.
  - repeat constructor; simpl; tauto.
  - reflexivity.
  - reflexivity.
  - reflexivity.
Defined.

(** ** The enqueue handler *)
Section Enqueue.

Lemma Identifier_eq_true (a b : string) :
  Identifier_eq a b = true <-> ci_equal a b.
Proof. unfold Identifier_eq, ci_equal. apply String.eqb_eq. Qed.

Lemma Identifier_eq_false (a b : string) :
  Identifier_eq a b = false <-> ~ ci_equal a b.
Proof. unfold Identifier_eq, ci_equal. apply String.eqb_neq. Qed.

Lemma Identifier_eq_sym (a b : string) : Identifier_eq a b = Identifier_eq b a.
Proof. unfold Identifier_eq. apply String.eqb_sym. Qed.

Lemma string_app_assoc (a b c : string) :
  ((a ++ b) ++ c = a ++ (b ++ c))%string.
Proof. induction a as [|x a IH]; simpl; [reflexivity | now rewrite IH]. Qed.



Lemma get_snoc {V : Type} (k : string) (v : V) (d : @Dict.t V) :
  Dict.get k d = None -> Dict.get k (d ++ [(k, v)])%list = Some v.
Proof.
  induction d as [|[k0 v0] d IH]; simpl.
  - now rewrite String.eqb_refl.
  - destruct (String.eqb k0 k); [discriminate | exact IH].
Qed.

Lemma set_absent {V : Type} (k : string) (v : V) (d : @Dict.t V) :
  Dict.get k d = None -> Dict.set k v d = (d ++ [(k, v)])%list.
Proof.
  induction d as [|[k0 v0] d IH]; simpl; [reflexivity |].
  destruct (String.eqb k0 k); [discriminate |]. intros H. now rewrite IH.
Qed.

Lemma set_snoc {V : Type} (k : string) (v v0 : V) (d : @Dict.t V) :
  Dict.get k d = None ->
  Dict.set k v (d ++ [(k, v0)])%list = (d ++ [(k, v)])%list.
Proof.
  induction d as [|[k1 v1] d IH]; simpl.
  - now rewrite String.eqb_refl.
  - destruct (String.eqb k1 k); [discriminate |]. intros H. now rewrite IH.
Qed.

Lemma append_reminder_present (key : string) (r : reminder) (data : index)
      (l : list reminder) :
  Dict.get key data = Some l ->
  append_reminder key r data = Dict.set key (l ++ [r])%list data.
Proof.
  intros H. unfold append_reminder, Dict.getitem_default. now rewrite H.
Qed.

Lemma append_reminder_absent (key : string) (r : reminder) (data : index) :
  Dict.get key data = None ->
  append_reminder key r data = (data ++ [(key, [r])])%list.
Proof.
  intros H. unfold append_reminder, Dict.getitem_default. rewrite H.
  rewrite (set_absent key [] data H). simpl. now apply set_snoc.
Qed.

Lemma append_reminder_get (key : string) (r : reminder) (data : index) :
  Dict.get key (append_reminder key r data)
  = Some (pending key data ++ [r])%list.
Proof.
  unfold append_reminder, Dict.getitem_default, pending.
  destruct (Dict.get key data); apply get_set_same.
Qed.

Lemma append_reminder_other (key k : string) (r : reminder) (data : index) :
  k <> key -> Dict.get k (append_reminder key r data) = Dict.get k data.
Proof.
  intros Hk. unfold append_reminder, Dict.getitem_default.
  destruct (Dict.get key data); now rewrite !get_set_other.
Qed.

(** *** The key an identifier is filed under *)

Lemma stored_key_some (tellee key : string) (data : index) :
  stored_key tellee data = Some key ->
  In key (Dict.keys data) /\ ci_equal key tellee.
Proof.
  unfold stored_key. intros H. apply find_some in H.
  destruct H as [Hin Heq]. split; [exact Hin | now apply Identifier_eq_true].
Qed.

Lemma stored_key_none (tellee : string) (data : index) :
  stored_key tellee data = None ->
  (forall key, In key (Dict.keys data) -> ~ ci_equal key tellee)
  /\ Dict.get tellee data = None.
Proof.
  unfold stored_key. intros H.
  assert (Hall : forall key, In key (Dict.keys data) -> ~ ci_equal key tellee).
  { intros key Hin. apply Identifier_eq_false.
    exact (find_none _ _ H key Hin). }
  split; [exact Hall |].
  apply get_none_not_in. intros Hin. now apply (Hall tellee Hin).
Qed.


Lemma filed_key_cases (tellee : string) (data : index) :
  In (filed_key tellee data) (Dict.keys data)
  \/ (filed_key tellee data = tellee
      /\ forall key, In key (Dict.keys data) -> ~ ci_equal key tellee).
Proof.
  unfold filed_key. destruct (stored_key tellee data) as [key|] eqn:H.
  - left. now apply (stored_key_some tellee key data).
  - right. split; [reflexivity | now apply stored_key_none].
Qed.

(** The two ways [f_remind] files a reminder come to the same: the reminder
    goes last under the key the recipient is filed under. *)
Lemma filed_as_append (tellee : string) (r : reminder) (data : index) :
  (if negb (Identifier_in tellee data)
   then Identifier_setitem tellee [r] data
   else Identifier_append tellee r data)
  = append_reminder (filed_key tellee data) r data.
Proof.
  unfold Identifier_in, Identifier_setitem, Identifier_append, filed_key.
  destruct (stored_key tellee data) as [key|] eqn:H; cbn [negb];
    [reflexivity |].
  apply stored_key_none in H. destruct H as [_ Hget].
  now rewrite set_absent, append_reminder_absent.
Qed.




(** C8, the input at which the claim fails: alice asks the bot to tell
    "me" something; the recipient is the token "me" and not the bot, and
    the answer is not the one the claim gives. *)
Lemma f_remind_me_is_not_yourself :
  let trigger := tell_command "alice" "me" "me remember milk" in
  rstrip_chars ".,:;" "me" = "me"
  /\ ~ ci_equal "me" (nick bot_five)
  /\ f_remind bot_five trigger "03 Nov 10:00Z"
     = (bot_five, [Say "Hey, I'm not as stupid as Monty you know!" None])
  /\ snd (f_remind bot_five trigger "03 Nov 10:00Z")
     <> [Say "You can tell yourself that." None].
Proof. vm_compute. repeat split; discriminate. Qed.

(** C8, as the handler has it.  A request whose recipient equals,
    case-insensitively, the requester's nickname or "me" changes neither the
    index nor the file.  When it has a message, the file exists and the
    recipient has at most 30 characters and is not the bot, the handler
    says "You can <verb> yourself that." to a recipient that equals the
    requester's nickname, and "Hey, I'm not as stupid as Monty you know!"
    to a recipient that equals "me" only. *)
Theorem f_remind_self_addressed
        (bot : Bot) (trigger : Trigger) (timenow g3 : string) :
  group3 trigger = Some g3 ->
  let tellee := rstrip_chars ".,:;" g3 in
  let teller := trigger_nick trigger in
  let msg := lstrip (lstrip_chars tellee (group2 trigger)) in
  ci_equal tellee teller \/ ci_equal tellee "me" ->
  fst (f_remind bot trigger timenow) = bot
  /\ (g3 <> "" -> msg <> "" -> tell_file bot <> None ->
      String.length tellee <= 30 -> ~ ci_equal tellee (nick bot) ->
      (ci_equal tellee teller ->
       snd (f_remind bot trigger timenow)
       = [Say ("You can " ++ group1 trigger ++ " yourself that.") None])
      /\ (~ ci_equal tellee teller ->
          snd (f_remind bot trigger timenow)
          = [Say "Hey, I'm not as stupid as Monty you know!" None])).
Proof.
  intros Hg3 tellee teller msg Hself.
  assert (Hor : Identifier_eq teller tellee || Identifier_eq (nick bot) tellee
                || Identifier_eq "me" tellee = true).
  { destruct Hself as [H | H]; apply Identifier_eq_true in H;
      rewrite Identifier_eq_sym in H; rewrite H;
      rewrite ?orb_true_r; reflexivity. }
  unfold f_remind. rewrite Hg3. destruct g3 as [|c g3]; [split; [reflexivity | congruence] |].
  fold tellee. fold teller. fold msg. rewrite Hor. cbn [negb].
  split.
  - destruct (String.eqb msg ""); [reflexivity |].
    destruct (tell_file bot); [| reflexivity].
    destruct (30 <? String.length tellee)%nat; [reflexivity |].
    destruct (Identifier_eq tellee (nick bot)); [reflexivity |].
    destruct (Identifier_eq teller tellee); reflexivity.
  - intros _ Hmsg Hfile Hlen Hbot.
    apply String.eqb_neq in Hmsg. rewrite Hmsg.
    destruct (tell_file bot); [| congruence].
    assert ((30 <? String.length tellee)%nat = false) as -> by (apply Nat.ltb_ge; lia).
    apply Identifier_eq_false in Hbot. rewrite Hbot.
    split; intros H.
    + apply Identifier_eq_true in H. rewrite Identifier_eq_sym in H.
      now rewrite H.
    + apply Identifier_eq_false in H. rewrite Identifier_eq_sym in H.
      now rewrite H.
Qed.

End Enqueue.


(** The recipient [Bob] is found under the stored key [bob]: the reminder
    goes last in the list of that key and no key is added. *)
Example tell_Bob_goes_under_bob :
  reminders (fst (f_remind bot_five
                           (tell_command "alice" "Bob:" "Bob see you at noon")
                           "03 Nov 12:00Z"))
  = [("bob", [("alice", "tell", "03 Nov 10:00Z", "one");
              ("alice", "tell", "03 Nov 10:01Z", "two");
              ("carol", "ask", "03 Nov 10:02Z", "three?");
              ("dave", "tell", "02 Nov 23:00Z", "four");
              ("erin", "tell", "03 Nov 10:04Z", "five");
              ("alice", "tell", "03 Nov 12:00Z", "see you at noon")]);
     ("al", [("dave", "tell", "03 Nov 11:00Z", "ping")])].
Proof. reflexivity. Qed.

Lemma f_remind_self_addressed_witness :
  let trigger := tell_command "alice" "Alice." "Alice. remember milk" in
  fst (f_remind bot_five trigger "03 Nov 12:00Z") = bot_five
  /\ snd (f_remind bot_five trigger "03 Nov 12:00Z")
     = [Say "You can tell yourself that." None].
Proof.
  intros trigger.
  destruct (f_remind_self_addressed bot_five trigger "03 Nov 12:00Z" "Alice."
              eq_refl (or_introl eq_refl)) as [Hsame Hsays].
  split; [exact Hsame |].
  apply Hsays.
  - discriminate.
  - vm_compute; discriminate.
  - discriminate.
  - vm_compute; lia.
  - vm_compute; discriminate.
  - reflexivity.
Defined.

Open Scope string_scope.

(** ** Lines and fields *)
Section Fields.

Lemma break_at_none (sep : ascii) (s : string) :
  break_at sep s = None <-> count_char sep s = 0.
Proof.
  induction s as [|c s IH]; simpl; [tauto |].
  destruct (Ascii.eqb c sep); simpl.
  - split; [discriminate | lia].
  - destruct (break_at sep s) as [[b r]|].
    + split; [discriminate |]. intros H. apply IH in H. discriminate.
    + split; [intros _; now apply IH | reflexivity].
Qed.

Lemma break_at_some (sep : ascii) (s before rest : string) :
  break_at sep s = Some (before, rest) ->
  s = (before ++ String sep rest)%string
  /\ count_char sep before = 0
  /\ count_char sep s = S (count_char sep rest).
Proof.
  revert before. induction s as [|c s IH]; intros before; simpl; [discriminate |].
  destruct (Ascii.eqb c sep) eqn:E.
  - apply Ascii.eqb_eq in E. subst c. intros [= <- <-]. now repeat split.
  - destruct (break_at sep s) as [[b r]|]; [| discriminate].
    intros [= <- <-]. destruct (IH b eq_refl) as [-> [Hb Hs]].
    simpl. rewrite E. simpl. repeat split; assumption.
Qed.

Lemma split_max_length (sep : ascii) (n : nat) (s : string) :
  List.length (split_max sep n s) = S (Nat.min n (count_char sep s)).
Proof.
  revert s. induction n as [|n IH]; intros s; simpl; [reflexivity |].
  destruct (break_at sep s) as [[b r]|] eqn:E.
  - apply break_at_some in E. destruct E as [_ [_ ->]]. simpl. now rewrite IH.
  - apply break_at_none in E. now rewrite E.
Qed.

Lemma count_char_le_length (c : ascii) (s : string) :
  count_char c s <= String.length s.
Proof.
  induction s as [|d s IH]; simpl; [lia |]. destruct (Ascii.eqb d c); lia.
Qed.

Lemma field_count_tabs (s : string) : field_count s = S (count_char TAB s).
Proof.
  unfold field_count, split. rewrite split_max_length.
  pose proof (count_char_le_length TAB s). lia.
Qed.

Lemma split_max_nonempty (sep : ascii) (n : nat) (s : string) :
  split_max sep n s <> [].
Proof.
  destruct n; simpl; [discriminate |]. destruct (break_at sep s) as [[b r]|];
    discriminate.
Qed.

(** Joining what was split gives the text back. *)
Lemma join_split_max (sep : ascii) (n : nat) (s : string) :
  join (String sep "") (split_max sep n s) = s.
Proof.
  revert s. induction n as [|n IH]; intros s; simpl; [reflexivity |].
  destruct (break_at sep s) as [[b r]|] eqn:E; [| reflexivity].
  apply break_at_some in E. destruct E as [-> _].
  specialize (IH r). unfold join in *. simpl.
  destruct (split_max sep n r) eqn:Er; [now apply split_max_nonempty in Er |].
  now rewrite IH.
Qed.

Lemma parse_line_some (s : string) :
  4 <= count_char TAB s -> exists record, parse_line s = Some record.
Proof.
  intros H. unfold parse_line.
  pose proof (split_max_length TAB 4 s) as Hlen.
  replace (Nat.min 4 (count_char TAB s)) with 4 in Hlen by lia.
  destruct (split_max TAB 4 s) as [|a [|b [|c [|d [|e [|]]]]]]; try discriminate.
  eexists. reflexivity.
Qed.

Lemma parse_line_none (s : string) :
  count_char TAB s < 4 -> parse_line s = None.
Proof.
  intros H. unfold parse_line.
  pose proof (split_max_length TAB 4 s) as Hlen.
  replace (Nat.min 4 (count_char TAB s)) with (count_char TAB s) in Hlen by lia.
  destruct (split_max TAB 4 s) as [|a [|b [|c [|d [|e [|]]]]]];
    try reflexivity; simpl in Hlen; lia.
Qed.

(** A record parsed from a line is the line cut at its first four tabs. *)
Lemma parse_line_line (s : string) (record : string * reminder) :
  parse_line s = Some record ->
  reminder_line (fst record) (snd record) = s.
Proof.
  unfold parse_line. intros H.
  pose proof (join_split_max TAB 4 s) as Hjoin.
  destruct (split_max TAB 4 s) as [|a [|b [|c [|d [|e [|]]]]]]; try discriminate.
  injection H as <-. exact Hjoin.
Qed.

(** The first four parts of a parsed line have no tab. *)
Lemma parse_line_fields (line k a b c d : string) :
  parse_line line = Some (k, (a, b, c, d)) ->
  count_char TAB k = 0 /\ count_char TAB a = 0
  /\ count_char TAB b = 0 /\ count_char TAB c = 0.
Proof.
  unfold parse_line. simpl.
  destruct (break_at TAB line) as [[k' r1]|] eqn:E1; [| discriminate].
  destruct (break_at TAB r1) as [[a' r2]|] eqn:E2; [| discriminate].
  destruct (break_at TAB r2) as [[b' r3]|] eqn:E3; [| discriminate].
  destruct (break_at TAB r3) as [[c' r4]|] eqn:E4; [| discriminate].
  intros [= -> -> -> -> ->].
  apply break_at_some in E1, E2, E3, E4. tauto.
Qed.

(** C7, the input at which the claim fails: the line has six fields
    between its tabs, not five, and it is loaded; the sixth stays in the
    message. *)
Lemma six_fields_line_is_loaded :
  let line := "bob" ++ tab ++ "alice" ++ tab ++ "tell" ++ tab ++ "03 Nov 10:00Z"
              ++ tab ++ "hello" ++ tab ++ "world" in
  field_count line = 6
  /\ load_reminders (line ++ newline)
     = [("bob", [("alice", "tell", "03 Nov 10:00Z", "hello" ++ tab ++ "world")])].
Proof. split; reflexivity. Qed.

(** C7, as the loader has it.  A line that is not empty once stripped is
    put in the index exactly when its stripped text splits on tab into at
    least five fields: it is cut at its first four tabs, so that the key,
    the teller, the verb and the time have no tab; the reminder made of
    the last four parts goes last under the key made of the first, and the
    message keeps any further tab.  With fewer than five fields the line
    leaves the index as it was. *)
Theorem load_line_by_fields (result : index) (line : string) :
  let text := strip line in
  text <> "" ->
  (5 <= field_count text ->
   exists tellee teller verb timenow msg,
     text = reminder_line tellee (teller, verb, timenow, msg)
     /\ count_char TAB tellee = 0
     /\ count_char TAB teller = 0
     /\ count_char TAB verb = 0
     /\ count_char TAB timenow = 0
     /\ load_line result line
        = append_reminder tellee (teller, verb, timenow, msg) result
     /\ Dict.get tellee (load_line result line)
        = Some (pending tellee result ++ [(teller, verb, timenow, msg)])%list)
  /\ (field_count text < 5 -> load_line result line = result).
Proof.
  intros text Hne. unfold load_line. fold text.
  apply String.eqb_neq in Hne. rewrite Hne. rewrite field_count_tabs. split.
  - intros H.
    destruct (parse_line_some text) as [[tellee [[[teller verb] timenow] msg]] Hp];
      [lia |].
    rewrite Hp. exists tellee, teller, verb, timenow, msg.
    destruct (parse_line_fields _ _ _ _ _ _ Hp) as [Hk [Ha [Hb Hc]]].
    split; [symmetry; exact (parse_line_line _ _ Hp) |].
    repeat (split; [assumption |]).
    split; [reflexivity | apply append_reminder_get].
  - intros H. now rewrite parse_line_none by lia.
Qed.

End Fields.

Lemma load_line_by_fields_witness :
  let line := "  bob" ++ tab ++ "alice" ++ tab ++ "tell" ++ tab
              ++ "03 Nov 10:00Z" ++ tab ++ "hello" ++ tab ++ "world" ++ newline in
  let short := "bob" ++ tab ++ "alice" ++ tab ++ "tell" ++ tab
               ++ "03 Nov 10:00Z" ++ tab ++ newline in
  (exists tellee teller verb timenow msg,
      strip line = reminder_line tellee (teller, verb, timenow, msg)
      /\ count_char TAB tellee = 0
      /\ count_char TAB teller = 0
      /\ count_char TAB verb = 0
      /\ count_char TAB timenow = 0
      /\ load_line five_for_bob line
         = append_reminder tellee (teller, verb, timenow, msg) five_for_bob
      /\ Dict.get tellee (load_line five_for_bob line)
         = Some (pending tellee five_for_bob
                 ++ [(teller, verb, timenow, msg)])%list)
  /\ load_line five_for_bob short = five_for_bob.
Proof.
  intros line short. split.
  - apply (proj1 (load_line_by_fields five_for_bob line ltac:(discriminate))).
    vm_compute. lia.
  - apply (proj2 (load_line_by_fields five_for_bob short ltac:(discriminate))).
    vm_compute. lia.
Defined.

(** ** Stripping *)
Section Stripping.
Variable p : ascii -> bool.

Lemma rstrip_by_idem (s : string) : rstrip_by p (rstrip_by p s) = rstrip_by p s.
Proof.
  induction s as [|c s IH]; [reflexivity |]. cbn [rstrip_by].
  destruct (rstrip_by p s) as [|d r] eqn:E.
  - destruct (p c) eqn:Hc; [reflexivity |]. simpl. now rewrite Hc.
  - cbn [rstrip_by]. cbn [rstrip_by] in IH. now rewrite IH.
Qed.

Lemma lstrip_by_idem (s : string) : lstrip_by p (lstrip_by p s) = lstrip_by p s.
Proof.
  induction s as [|c s IH]; [reflexivity |]. simpl.
  destruct (p c) eqn:Hc; [exact IH |]. simpl. now rewrite Hc.
Qed.

Lemma strip_by_commute (s : string) :
  rstrip_by p (lstrip_by p s) = lstrip_by p (rstrip_by p s).
Proof.
  induction s as [|c s IH]; [reflexivity |]. cbn [lstrip_by rstrip_by].
  destruct (p c) eqn:Hc.
  - rewrite IH. destruct (rstrip_by p s) as [|d r]; [reflexivity |].
    cbn [lstrip_by]. now rewrite Hc.
  - cbn [rstrip_by].
    destruct (rstrip_by p s) as [|d r]; cbn [lstrip_by]; rewrite ?Hc;
      cbn [lstrip_by]; rewrite ?Hc; reflexivity.
Qed.

Lemma rstrip_by_snoc (s : string) (c : ascii) :
  p c = true -> rstrip_by p (s ++ String c "") = rstrip_by p s.
Proof.
  intros Hc. induction s as [|d s IH]; simpl; [now rewrite Hc |].
  now rewrite IH.
Qed.

Lemma count_lstrip_by (c : ascii) (s : string) :
  count_char c (lstrip_by p s) <= count_char c s.
Proof.
  induction s as [|d s IH]; simpl; [lia |].
  destruct (p d); simpl; lia.
Qed.

Lemma count_rstrip_by (c : ascii) (s : string) :
  count_char c (rstrip_by p s) <= count_char c s.
Proof.
  induction s as [|d s IH]; simpl; [lia |].
  destruct (rstrip_by p s) as [|e r].
  - destruct (p d); simpl in *; lia.
  - simpl in *. lia.
Qed.

End Stripping.

Section StripFacts.

Lemma strip_newline (s : string) : strip (s ++ newline) = strip s.
Proof.
  unfold strip, rstrip, newline. now rewrite rstrip_by_snoc.
Qed.

Lemma strip_idem (s : string) : strip (strip s) = strip s.
Proof.
  unfold strip, lstrip, rstrip.
  now rewrite strip_by_commute, rstrip_by_idem, lstrip_by_idem.
Qed.

Lemma count_strip (c : ascii) (s : string) :
  count_char c (strip s) <= count_char c s.
Proof.
  unfold strip, lstrip, rstrip.
  pose proof (count_lstrip_by isspace c (rstrip_by isspace s)).
  pose proof (count_rstrip_by isspace c s). lia.
Qed.

(** A line of a file has no newline before its end. *)
Lemma readlines_bodies (text : string) :
  Forall (fun line => exists body,
              count_char NL body = 0
              /\ (line = body \/ line = body ++ newline))
         (readlines text).
Proof.
  induction text as [|c text IH]; simpl; [constructor |].
  destruct (Ascii.eqb c NL) eqn:E.
  - constructor; [| exact IH]. exists "". split; [reflexivity | now right].
  - destruct (readlines text) as [|line lines].
    + constructor; [| constructor]. exists (String c "").
      simpl. rewrite E. split; [reflexivity | now left].
    + inversion IH as [|? ? [body [Hb Hl]] Hrest]; subst.
      constructor; [| exact Hrest]. exists (String c body). simpl. rewrite E.
      split; [exact Hb |]. destruct Hl as [-> | ->]; [now left | now right].
Qed.

Lemma readlines_stripped (text line : string) :
  In line (readlines text) -> count_char NL (strip line) = 0.
Proof.
  intros Hin. pose proof (readlines_bodies text) as H.
  rewrite Forall_forall in H. destruct (H line Hin) as [body [Hb [-> | ->]]].
  - pose proof (count_strip NL body). lia.
  - rewrite strip_newline. pose proof (count_strip NL body). lia.
Qed.

Lemma readlines_line (line rest : string) :
  count_char NL line = 0 ->
  readlines (line ++ newline ++ rest) = (line ++ newline) :: readlines rest.
Proof.
  induction line as [|c line IH]; intros H; [reflexivity |].
  cbn [String.append readlines count_char] in *.
  destruct (Ascii.eqb c NL) eqn:E; [discriminate |].
  rewrite IH by exact H. reflexivity.
Qed.

Lemma readlines_written (recs : list (string * reminder)) :
  Forall loadable recs ->
  readlines (fold_right String.append "" (map record_line recs))
  = map record_line recs.
Proof.
  induction 1 as [|rec recs [Hnl _] _ IH]; simpl; [reflexivity |].
  unfold record_line at 1. rewrite string_app_assoc.
  rewrite readlines_line by exact Hnl. now rewrite IH.
Qed.

Lemma dump_lines_records (data : index) :
  dump_lines data = map record_line (records data).
Proof.
  unfold dump_lines, records.
  induction data as [|[k rs] data IH]; simpl; [reflexivity |].
  rewrite map_app, map_map, IH. reflexivity.
Qed.

End StripFacts.

(** ** Loading what was dumped *)
Section RoundTrip.

Lemma parsed_record_loadable (line : string) (record : string * reminder) :
  count_char NL (strip line) = 0 ->
  strip line <> "" ->
  parse_line (strip line) = Some record ->
  loadable record.
Proof.
  intros Hnl Hne Hp. unfold loadable.
  rewrite (parse_line_line _ _ Hp).
  repeat split; try assumption.
  rewrite strip_newline. apply strip_idem.
Qed.

Lemma load_line_loadable (result : index) (record : string * reminder) :
  loadable record -> load_line result (record_line record) = add_record result record.
Proof.
  intros [_ [Hstrip [Hne Hp]]]. unfold load_line, record_line.
  rewrite Hstrip. apply String.eqb_neq in Hne. rewrite Hne, Hp.
  now destruct record.
Qed.

Lemma load_written (recs : list (string * reminder)) (result : index) :
  Forall loadable recs ->
  fold_left load_line (map record_line recs) result
  = fold_left add_record recs result.
Proof.
  intros H. revert result.
  induction H as [|rec recs Hrec _ IH]; intros result; simpl; [reflexivity |].
  now rewrite load_line_loadable, IH.
Qed.

Lemma load_dump (data : index) :
  Forall loadable (records data) ->
  load_reminders (dump_reminders data) = fold_left add_record (records data) [].
Proof.
  intros H. unfold load_reminders, dump_reminders.
  rewrite dump_lines_records, readlines_written by assumption.
  now apply load_written.
Qed.

(** *** The shape of a loaded index *)

Lemma in_records (data : index) (key : string) (r : reminder) :
  In (key, r) (records data) <-> exists rs, In (key, rs) data /\ In r rs.
Proof.
  unfold records. rewrite in_flat_map. split.
  - intros [[k rs] [Hitem Hin]]. simpl in Hin. apply in_map_iff in Hin.
    destruct Hin as [r' [[= <- <-] Hr]]. now exists rs.
  - intros [rs [Hitem Hr]]. exists (key, rs). split; [assumption |].
    simpl. now apply in_map.
Qed.

Lemma in_set {V : Type} (k k' : string) (v v' : V) (d : @Dict.t V) :
  In (k', v') (Dict.set k v d) -> In (k', v') d \/ (k' = k /\ v' = v).
Proof.
  induction d as [|[k0 v0] d IH]; simpl.
  - intros [[= <- <-] | []]. now right.
  - destruct (String.eqb k0 k) eqn:E; simpl.
    + apply String.eqb_eq in E. subst k0.
      intros [[= <- <-] | H]; [now right | left; now right].
    + intros [H | H]; [left; now left |].
      destruct (IH H) as [H' | H']; [left; now right | now right].
Qed.

Lemma append_reminder_snoc (key : string) (r : reminder) (acc : index)
      (l : list reminder) :
  Dict.get key acc = None ->
  append_reminder key r (acc ++ [(key, l)])%list
  = (acc ++ [(key, (l ++ [r])%list)])%list.
Proof.
  intros H. rewrite (append_reminder_present key r _ l) by now apply get_snoc.
  now apply set_snoc.
Qed.

Lemma records_app (d1 d2 : index) :
  records (d1 ++ d2)%list = (records d1 ++ records d2)%list.
Proof. unfold records. apply flat_map_app. Qed.

Lemma nodup_snoc (k : string) (l : list string) :
  ~ In k l -> NoDup l -> NoDup (l ++ [k])%list.
Proof.
  intros Hk Hl. apply (Permutation_NoDup (l := k :: l)).
  - apply Permutation_cons_append.
  - now constructor.
Qed.

Lemma append_reminder_loaded (key : string) (r : reminder) (data : index) :
  loaded data -> loadable (key, r) -> loaded (append_reminder key r data).
Proof.
  intros [Hnodup [Hfull Hrecs]] Hr.
  destruct (Dict.get key data) as [l|] eqn:Hget.
  - rewrite (append_reminder_present _ _ _ _ Hget). repeat split.
    + now rewrite (keys_set_present _ _ _ _ Hget).
    + rewrite Forall_forall in *. intros [k rs] Hin. apply in_set in Hin.
      destruct Hin as [Hin | [_ ->]]; [now apply Hfull |].
      simpl. now destruct l.
    + rewrite Forall_forall in *. intros [k r'] Hin.
      apply in_records in Hin. destruct Hin as [rs [Hitem Hin]].
      apply in_set in Hitem. destruct Hitem as [Hitem | [-> ->]].
      * apply Hrecs. apply in_records. now exists rs.
      * apply in_app_or in Hin. destruct Hin as [Hin | [<- | []]]; [| exact Hr].
        apply Hrecs. apply in_records. exists l. split; [| assumption].
        now apply get_in.
  - rewrite (append_reminder_absent _ _ _ Hget). repeat split.
    + unfold Dict.keys. rewrite map_app. simpl. apply nodup_snoc; [| exact Hnodup].
      now apply get_none_not_in.
    + apply Forall_app. split; [exact Hfull |]. constructor; [discriminate | constructor].
    + rewrite records_app. apply Forall_app. split; [exact Hrecs |].
      simpl. constructor; [exact Hr | constructor].
Qed.

Lemma load_line_loaded (result : index) (line : string) :
  count_char NL (strip line) = 0 ->
  loaded result -> loaded (load_line result line).
Proof.
  intros Hnl Hres. unfold load_line.
  destruct (String.eqb (strip line) "") eqn:E; [exact Hres |].
  apply String.eqb_neq in E.
  destruct (parse_line (strip line)) as [[tellee r]|] eqn:Hp; [| exact Hres].
  apply append_reminder_loaded; [exact Hres |].
  now apply (parsed_record_loadable line).
Qed.

Lemma load_reminders_loaded (file : string) : loaded (load_reminders file).
Proof.
  unfold load_reminders.
  assert (Hlines : forall line, In line (readlines file) ->
                                count_char NL (strip line) = 0)
    by (intros line; apply readlines_stripped).
  assert (Hstart : loaded []).
  { repeat split; constructor. }
  revert Hlines Hstart. generalize (@nil (string * list reminder)).
  induction (readlines file) as [|line lines IH]; intros result Hlines Hres;
    simpl; [exact Hres |].
  apply IH.
  - intros l Hl. apply Hlines. now right.
  - apply load_line_loaded; [apply Hlines; now left | exact Hres].
Qed.

(** *** Filing the records of an index again *)

Lemma refile_key (key : string) (rs l : list reminder) (acc : index) :
  Dict.get key acc = None ->
  fold_left add_record (map (pair key) rs) (acc ++ [(key, l)])%list
  = (acc ++ [(key, (l ++ rs)%list)])%list.
Proof.
  intros Hacc. revert l. induction rs as [|r rs IH]; intros l; simpl.
  - now rewrite app_nil_r.
  - change (add_record ?a (key, r)) with (append_reminder key r a).
    rewrite append_reminder_snoc by assumption.
    rewrite IH, <- app_assoc. reflexivity.
Qed.

Lemma refile (data acc : index) :
  NoDup (Dict.keys acc ++ Dict.keys data)%list ->
  Forall (fun item => snd item <> []) data ->
  fold_left add_record (records data) acc = (acc ++ data)%list.
Proof.
  revert acc. induction data as [|[key rs] data IH]; intros acc Hnodup Hfull;
    simpl; [now rewrite app_nil_r |].
  inversion Hfull as [|? ? Hrs Hfull']; subst. simpl in Hrs.
  assert (Hacc : Dict.get key acc = None).
  { apply get_none_not_in. intros Hin.
    apply NoDup_remove_2 in Hnodup. apply Hnodup. apply in_or_app. now left. }
  unfold records. simpl. fold (records data). rewrite fold_left_app.
  destruct rs as [|r rs]; [congruence |]. cbn [map fold_left].
  change (add_record acc (key, r)) with (append_reminder key r acc).
  rewrite append_reminder_absent by assumption.
  rewrite (refile_key key rs [r] acc Hacc). cbn [app].
  rewrite IH.
  - now rewrite <- app_assoc.
  - unfold Dict.keys in *. rewrite map_app, <- app_assoc. exact Hnodup.
  - exact Hfull'.
Qed.

(** C2. Loading a file, dumping the index and loading the dump gives the
    index back: the same keys in the same order, each with the same list
    of reminders in the same order.  It holds of every file, well-formed or
    not. *)
Theorem load_dump_load (file : string) :
  load_reminders (dump_reminders (load_reminders file)) = load_reminders file.
Proof.
  destruct (load_reminders_loaded file) as [Hnodup [Hfull Hrecs]].
  rewrite load_dump by exact Hrecs.
  now rewrite refile.
Qed.

End RoundTrip.

(** ** Keys stay unique *)
Section UniqueKeys.

Lemma message_keeps_keys_unique (bot : Bot) (trigger : Trigger) (today : string) :
  NoDup (Dict.keys (reminders bot)) ->
  NoDup (Dict.keys (reminders (fst (message bot trigger today)))).
Proof.
  intros Hnodup. destruct (tell_file bot) as [file|] eqn:Hfile.
  - rewrite (message_index bot trigger today file Hfile Hnodup).
    generalize (fun item : string * list reminder =>
                  negb (key_matches (fst item) (trigger_nick trigger))).
    intros f. induction (reminders bot) as [|[k v] d IH]; simpl; [constructor |].
    inversion Hnodup as [|? ? Hk Hd]; subst.
    destruct (f (k, v)); simpl; [| now apply IH].
    constructor; [| now apply IH].
    intros Hin. apply Hk. unfold Dict.keys in *.
    apply in_map_iff in Hin. destruct Hin as [item [Hfst Hin]].
    apply filter_In in Hin. apply in_map_iff. exists item. tauto.
  - now rewrite message_disabled.
Qed.



(** The example of the specification: alice leaves "hello" for bob; when
    bob speaks the bot says the line and bob is no longer a key. *)
Example tell_bob_hello :
  let bot0 := mkBot "sopel" (Some "") [] in
  let bot1 := fst (f_remind bot0 (tell_command "alice" "bob" "bob hello")
                            "03 Nov 10:00Z") in
  let result := message bot1 (spoken "bob" "hi") "03 Nov" in
  reminders bot1 = [("bob", [("alice", "tell", "03 Nov 10:00Z", "hello")])]
  /\ snd result = [Say "bob: 10:00Z <alice> tell bob hello" None]
  /\ Dict.mem "bob" (reminders (fst result)) = false
  /\ tell_file (fst result) = Some "".
Proof. repeat split. Qed.

End UniqueKeys.

Import Lifecycle Shape.

(** ** More on strings *)
Section MoreStrings.
Variable p : ascii -> bool.

Lemma string_length_app (a b : string) :
  String.length (a ++ b) = String.length a + String.length b.
Proof. induction a as [|c a IH]; simpl; [reflexivity | now rewrite IH]. Qed.

Lemma string_app_inv_head (a b c : string) : a ++ b = a ++ c -> b = c.
Proof.
  induction a as [|x a IH]; simpl; [trivial |]. intros [= H]. now apply IH.
Qed.


Lemma lstrip_by_length (s : string) :
  String.length (lstrip_by p s) <= String.length s.
Proof.
  induction s as [|c s IH]; simpl; [lia |]. destruct (p c); simpl; lia.
Qed.

Lemma rstrip_by_length (s : string) :
  String.length (rstrip_by p s) <= String.length s.
Proof.
  induction s as [|c s IH]; simpl; [lia |].
  destruct (rstrip_by p s); [destruct (p c) |]; simpl in *; lia.
Qed.

(** A text that [lstrip] leaves alone is empty or starts with a character
    that is not stripped. *)
Lemma lstrip_by_fixed (c : ascii) (s : string) :
  lstrip_by p (String c s) = String c s <-> p c = false.
Proof.
  simpl. destruct (p c) eqn:Hc; split; try reflexivity; try discriminate.
  intros H. pose proof (lstrip_by_length s) as Hlen. rewrite H in Hlen.
  simpl in Hlen. lia.
Qed.

Lemma rstrip_by_app (a b : string) :
  rstrip_by p (a ++ b)
  = match rstrip_by p b with
    | EmptyString => rstrip_by p a
    | String _ _ => a ++ rstrip_by p b
    end.
Proof.
  induction a as [|c a IH]; simpl.
  - now destruct (rstrip_by p b).
  - rewrite IH. destruct (rstrip_by p b) as [|d r]; [reflexivity |].
    destruct (a ++ String d r) eqn:E; [| reflexivity].
    destruct a; discriminate.
Qed.

Lemma break_at_app (sep : ascii) (a b : string) :
  count_char sep a = 0 -> break_at sep (a ++ String sep b) = Some (a, b).
Proof.
  induction a as [|c a IH]; simpl.
  - intros _. now rewrite Ascii.eqb_refl.
  - destruct (Ascii.eqb c sep); [discriminate |]. simpl. intros H.
    now rewrite IH.
Qed.

End MoreStrings.

(** ** Clean records are the records that reload *)
Section CleanRecords.

Lemma reminder_line_fields (k a b c d : string) :
  reminder_line k (a, b, c, d)
  = k ++ String TAB (a ++ String TAB (b ++ String TAB (c ++ String TAB d))).
Proof. reflexivity. Qed.

Lemma reminder_line_message (k a b c d : string) :
  reminder_line k (a, b, c, d)
  = ((k ++ String TAB (a ++ String TAB (b ++ String TAB c))) ++ tab) ++ d.
Proof.
  rewrite reminder_line_fields. unfold tab.
  repeat (rewrite string_app_assoc; simpl). reflexivity.
Qed.

(** Nothing that ends in a tab is left alone by [rstrip]. *)
Lemma rstrip_after_tab (front rest : string) :
  rstrip_by isspace (front ++ tab) <> (front ++ tab) ++ rest.
Proof.
  unfold tab. rewrite rstrip_by_snoc by reflexivity. intros H.
  apply (f_equal String.length) in H.
  pose proof (rstrip_by_length isspace front) as Hlen.
  rewrite !string_length_app in H. simpl in H. lia.
Qed.

Lemma parse_reminder_line (k a b c d : string) :
  count_char TAB k = 0 -> count_char TAB a = 0 ->
  count_char TAB b = 0 -> count_char TAB c = 0 ->
  parse_line (reminder_line k (a, b, c, d)) = Some (k, (a, b, c, d)).
Proof.
  intros Hk Ha Hb Hc. rewrite reminder_line_fields. unfold parse_line. simpl.
  rewrite (break_at_app TAB k _ Hk), (break_at_app TAB a _ Ha).
  rewrite (break_at_app TAB b _ Hb), (break_at_app TAB c _ Hc). reflexivity.
Qed.

Lemma strip_fixed (s : string) :
  strip s = s <-> lstrip s = s /\ rstrip s = s.
Proof.
  unfold strip, lstrip, rstrip. split.
  - intros H. split; rewrite <- H.
    + apply lstrip_by_idem.
    + now rewrite strip_by_commute, rstrip_by_idem.
  - intros [Hl Hr]. now rewrite Hr.
Qed.

Lemma clean_loadable (record : string * reminder) :
  clean_record record -> loadable record.
Proof.
  destruct record as [k [[[a b] c] d]].
  intros [Hnl [Hk [Ha [Hb [Hc [Hkne [Hkl [Hdne Hdr]]]]]]]].
  unfold loadable. cbn [fst snd].
  split; [exact Hnl |]. split; [| split].
  - rewrite strip_newline. apply strip_fixed. split.
    + rewrite reminder_line_fields. destruct k as [|x k]; [congruence |].
      unfold lstrip in *. apply lstrip_by_fixed in Hkl.
      cbn [String.append]. now apply lstrip_by_fixed.
    + rewrite reminder_line_message. unfold rstrip in *.
      rewrite rstrip_by_app, Hdr. destruct d; [congruence | reflexivity].
  - rewrite reminder_line_fields. destruct k; [congruence | discriminate].
  - now apply parse_reminder_line.
Qed.

Lemma loadable_clean (record : string * reminder) :
  loadable record -> clean_record record.
Proof.
  destruct record as [k [[[a b] c] d]]. unfold loadable. cbn [fst snd].
  intros [Hnl [Hstrip [Hne Hparse]]].
  rewrite strip_newline in Hstrip. apply strip_fixed in Hstrip.
  destruct Hstrip as [Hl Hr].
  destruct (parse_line_fields _ _ _ _ _ _ Hparse) as [Hk [Ha [Hb Hc]]].
  unfold clean_record. repeat split; try assumption.
  - intros ->. rewrite reminder_line_fields in Hl. unfold lstrip in Hl.
    cbn [String.append] in Hl. apply lstrip_by_fixed in Hl. discriminate.
  - rewrite reminder_line_fields in Hl. unfold lstrip in *.
    destruct k as [|x k]; [reflexivity |]. cbn [String.append] in Hl.
    apply lstrip_by_fixed in Hl. now apply lstrip_by_fixed.
  - intros ->. rewrite reminder_line_message in Hr. unfold rstrip in Hr.
    rewrite rstrip_by_app in Hr. cbn [rstrip_by] in Hr.
    now apply rstrip_after_tab in Hr.
  - rewrite reminder_line_message in Hr. unfold rstrip in *.
    rewrite rstrip_by_app in Hr.
    destruct (rstrip_by isspace d) as [|x r] eqn:Hd.
    + now apply rstrip_after_tab in Hr.
    + now apply string_app_inv_head in Hr.
Qed.

Lemma tidy_loaded (data : index) : tidy data <-> loaded data.
Proof.
  unfold tidy, well_keyed, loaded. split.
  - intros [[Hn Hf] Hc]. repeat split; try assumption.
    eapply Forall_impl; [| exact Hc]. intros; now apply clean_loadable.
  - intros [Hn [Hf Hl]]. repeat split; try assumption.
    eapply Forall_impl; [| exact Hl]. intros; now apply loadable_clean.
Qed.

Lemma loaded_reloads (data : index) :
  loaded data -> load_reminders (dump_reminders data) = data.
Proof.
  intros [Hnodup [Hfull Hrecs]].
  rewrite load_dump by exact Hrecs. now rewrite refile.
Qed.

End CleanRecords.

(** ** Plain text stays plain *)
Section PlainText.

Lemma plain_app (a b : string) : plain (a ++ b) = plain a && plain b.
Proof.
  induction a as [|c a IH]; simpl; [reflexivity |].
  now rewrite IH, andb_assoc.
Qed.









(** A plain index dumps to a plain file. *)
Lemma dump_reminders_plain (data : index) :
  plain_index data -> plain (dump_reminders data) = true.
Proof.
  unfold plain_index, dump_reminders. rewrite dump_lines_records.
  induction 1 as [|record recs Hr _ IH]; [reflexivity |].
  cbn [map fold_right]. unfold record_line at 1.
  rewrite !plain_app, Hr, IH. reflexivity.
Qed.




End PlainText.

(** ** What a load puts under a key *)
Section Grouping.

Lemma load_as_records (lines : list string) (result : index) :
  fold_left load_line lines result
  = fold_left add_record
      (flat_map
         (fun line =>
            let line := strip line in
            if String.eqb line "" then []
            else match parse_line line with
                 | Some record => [record]
                 | None => []
                 end)
         lines)
      result.
Proof.
  revert result. induction lines as [|line lines IH]; intros result;
    [reflexivity |].
  cbn [fold_left flat_map]. rewrite fold_left_app, IH. f_equal.
  unfold load_line. destruct (String.eqb (strip line) ""); [reflexivity |].
  destruct (parse_line (strip line)) as [[tellee r]|]; reflexivity.
Qed.

Lemma pending_add_record (k : string) (record : string * reminder)
      (data : index) :
  pending k (add_record data record)
  = if String.eqb (fst record) k
    then (pending k data ++ [snd record])%list
    else pending k data.
Proof.
  destruct record as [key r]. unfold add_record. cbn [fst snd].
  destruct (String.eqb key k) eqn:E.
  - apply String.eqb_eq in E. subst key. unfold pending at 1.
    now rewrite append_reminder_get.
  - apply String.eqb_neq in E. unfold pending.
    rewrite append_reminder_other by congruence. reflexivity.
Qed.

Lemma pending_fold (k : string) (recs : list (string * reminder))
      (data : index) :
  pending k (fold_left add_record recs data)
  = (pending k data ++ filed_under k recs)%list.
Proof.
  revert data. induction recs as [|record recs IH]; intros data; simpl.
  - now rewrite app_nil_r.
  - rewrite IH, pending_add_record. unfold filed_under. simpl.
    destruct (String.eqb (fst record) k); simpl; [now rewrite <- app_assoc |].
    reflexivity.
Qed.

(** X1. Under a key, a load puts the reminders of the lines of the file
    that carry that key, skipped lines left out, in the order of the file. *)
Theorem load_reminders_groups_by_key (file key : string) :
  pending key (load_reminders file) = filed_under key (parsed_records file).
Proof.
  unfold load_reminders, parsed_records.
  rewrite load_as_records, pending_fold. reflexivity.
Qed.

(** X2. Whatever the file, the index a load gives has no key twice and no
    empty list, and every record in it is clean: its fields have no
    newline, the first four have no tab, the key is not empty and does not
    start with whitespace, the message is not empty and does not end with
    whitespace. *)
Theorem load_reminders_is_tidy (file : string) : tidy (load_reminders file).
Proof. apply tidy_loaded, load_reminders_loaded. Qed.

(** X3. An index of plain records, that is, of ASCII text without
    carriage return: its dump is plain text, and the index comes back from
    the file as it was dumped exactly when it is tidy. *)
Theorem dump_load_of_plain_index (data : index) :
  plain_index data ->
  plain (dump_reminders data) = true
  /\ (load_reminders (dump_reminders data) = data <-> tidy data).
Proof.
  intros Hplain. split; [now apply dump_reminders_plain |]. split.
  - intros H. rewrite <- H. apply tidy_loaded, load_reminders_loaded.
  - intros H. now apply loaded_reloads, tidy_loaded.
Qed.

End Grouping.

Lemma five_for_bob_tidy : tidy Examples.five_for_bob.
Proof.
  unfold tidy, well_keyed, Examples.five_for_bob. repeat split.
  - repeat constructor; simpl; intuition discriminate.
  - repeat constructor; discriminate.
  - unfold records. simpl.
    repeat constructor; try reflexivity; discriminate.
Qed.

Lemma five_for_bob_plain : plain_index Examples.five_for_bob.
Proof. repeat constructor. Qed.

Lemma dump_load_of_plain_index_witness :
  plain (dump_reminders Examples.five_for_bob) = true
  /\ load_reminders (dump_reminders Examples.five_for_bob) = Examples.five_for_bob.
Proof.
  destruct (dump_load_of_plain_index Examples.five_for_bob five_for_bob_plain)
    as [Hplain Hload].
  split; [exact Hplain | exact (proj2 Hload five_for_bob_tidy)].
Defined.

(** ** The file keeps step with the index *)
Section InStep.






(** What a call of [f_remind] comes to: the state is left alone, or the
    request is filed, dumped and confirmed. *)
Lemma f_remind_outcome (bot : Bot) (trigger : Trigger) (timenow : string) :
  fst (f_remind bot trigger timenow) = bot
  \/ exists g3,
      let tellee := rstrip_chars ".,:;" g3 in
      let msg := lstrip (lstrip_chars tellee (group2 trigger)) in
      let data := append_reminder
                    (filed_key tellee (reminders bot))
                    (trigger_nick trigger, group1 trigger, timenow, msg)
                    (reminders bot) in
      group3 trigger = Some g3 /\ g3 <> "" /\ msg <> ""
      /\ tell_file bot <> None
      /\ f_remind bot trigger timenow
         = (mkBot (nick bot) (Some (dump_reminders data)) data,
            [Reply ("I'll pass that on when " ++ tellee ++ " is around.")]).
Proof.
  unfold f_remind.
  destruct (group3 trigger) as [[|c g3]|] eqn:Hg3; try (now left).
  set (tellee := rstrip_chars ".,:;" (String c g3)).
  set (msg := lstrip (lstrip_chars tellee (group2 trigger))).
  destruct (String.eqb msg "") eqn:Hmsg; [now left |].
  destruct (tell_file bot) eqn:Hfile; [| now left].
  destruct (30 <? String.length tellee)%nat; [now left |].
  destruct (Identifier_eq tellee (nick bot)); [now left |].
  destruct (negb _); [| destruct (Identifier_eq _ tellee); now left].
  right. exists (String c g3). fold tellee. fold msg. cbn zeta.
  rewrite filed_as_append. apply String.eqb_neq in Hmsg.
  repeat split; try assumption; discriminate.
Qed.












(** X5. [setup] settles: a second call changes nothing.  After it the file
    exists and the handlers have their state; an index that was in memory is
    kept, not reloaded, and the text of a file that was there is kept. *)
Theorem setup_settles (host : Host) :
  setup (setup host) = setup host
  /\ (exists text data,
         host_file (setup host) = Some text
         /\ memory_reminders (setup host) = Some data
         /\ tell_lock (setup host) = true)
  /\ (forall data, memory_reminders host = Some data ->
                   memory_reminders (setup host) = Some data)
  /\ (forall text, host_file host = Some text ->
                   host_file (setup host) = Some text).
Proof.
  destruct host as [name [text|] [|] [data|]]; cbn;
    (split; [reflexivity |]);
    (split; [eexists; eexists; repeat split |]);
    split; intros ? [= <-]; reflexivity.
Qed.

End InStep.


(** ** More on the enqueue handler *)
Section EnqueueMore.

(** X6. [f_remind] sends one message at most, and none in one case only: the
    request has a recipient and a message and the reminder file does not
    exist. *)
Theorem f_remind_answers (bot : Bot) (trigger : Trigger) (timenow : string) :
  List.length (snd (f_remind bot trigger timenow)) <= 1
  /\ (snd (f_remind bot trigger timenow) = [] <->
      exists g3,
        group3 trigger = Some g3 /\ g3 <> ""
        /\ lstrip (lstrip_chars (rstrip_chars ".,:;" g3) (group2 trigger)) <> ""
        /\ tell_file bot = None).
Proof.
  unfold f_remind.
  destruct (group3 trigger) as [[|c g3]|] eqn:Hg3.
  - split; [simpl; lia |]. split; [discriminate |].
    intros [g [[= <-] [Hne _]]]. congruence.
  - set (tellee := rstrip_chars ".,:;" (String c g3)).
    set (msg := lstrip (lstrip_chars tellee (group2 trigger))).
    destruct (String.eqb msg "") eqn:Hmsg.
    + split; [simpl; lia |]. split; [discriminate |].
      intros [g [[= <-] [_ [Hm _]]]]. apply String.eqb_eq in Hmsg.
      fold tellee in Hm. fold msg in Hm. congruence.
    + destruct (tell_file bot) eqn:Hfile.
      * assert (Hone : forall (b : Bot) (e : event),
                   List.length (snd (b, [e])) <= 1
                   /\ (snd (b, [e]) = [] <->
                       exists g,
                         Some (String c g3) = Some g /\ g <> ""
                         /\ lstrip (lstrip_chars (rstrip_chars ".,:;" g)
                                                 (group2 trigger)) <> ""
                         /\ Some s = None)).
        { intros b e. split; [simpl; lia |]. split; [discriminate |].
          intros [g [_ [_ [_ Hnone]]]]. discriminate. }
        destruct (30 <? String.length tellee)%nat; [apply Hone |].
        destruct (Identifier_eq tellee (nick bot)); [apply Hone |].
        destruct (negb _); [apply Hone |].
        destruct (Identifier_eq _ tellee); apply Hone.
      * split; [simpl; lia |]. split; [| reflexivity].
        intros _. exists (String c g3). apply String.eqb_neq in Hmsg.
        repeat split; try assumption. discriminate.
  - split; [simpl; lia |]. split; [discriminate |].
    intros [g [Hg _]]. discriminate.
Qed.

(** X7. A recipient of more than 30 characters is turned down with "That
    nickname is too long." and nothing is changed, as soon as the request
    has a message and the file exists: the length is looked at before the
    recipient is compared with anybody. *)
Theorem f_remind_too_long
        (bot : Bot) (trigger : Trigger) (timenow g3 file : string) :
  group3 trigger = Some g3 ->
  let tellee := rstrip_chars ".,:;" g3 in
  lstrip (lstrip_chars tellee (group2 trigger)) <> "" ->
  tell_file bot = Some file ->
  30 < String.length tellee ->
  f_remind bot trigger timenow = (bot, [Reply "That nickname is too long."]).
Proof.
  intros Hg3 tellee Hmsg Hfile Hlen. unfold f_remind. rewrite Hg3.
  destruct g3 as [|c g3]; [simpl in Hlen; lia |].
  fold tellee. apply String.eqb_neq in Hmsg. rewrite Hmsg, Hfile.
  apply Nat.ltb_lt in Hlen. now rewrite Hlen.
Qed.

(** X8. The answer "Hey, I'm not as stupid as Monty you know!" is given to
    a recipient that is "me", case apart, and to no other: never to the
    bot's own nickname, which the earlier test has turned down, and never
    to the requester's.  Nothing is changed. *)
Theorem f_remind_monty_means_me
        (bot : Bot) (trigger : Trigger) (timenow : string) :
  snd (f_remind bot trigger timenow)
  = [Say "Hey, I'm not as stupid as Monty you know!" None] ->
  exists g3,
    let tellee := rstrip_chars ".,:;" g3 in
    group3 trigger = Some g3
    /\ ci_equal tellee "me"
    /\ ~ ci_equal tellee (nick bot)
    /\ ~ ci_equal tellee (trigger_nick trigger)
    /\ fst (f_remind bot trigger timenow) = bot.
Proof.
  unfold f_remind.
  destruct (group3 trigger) as [[|c g3]|] eqn:Hg3; try discriminate.
  set (tellee := rstrip_chars ".,:;" (String c g3)).
  destruct (String.eqb _ ""); [discriminate |].
  destruct (tell_file bot); [| discriminate].
  destruct (30 <? String.length tellee)%nat; [discriminate |].
  destruct (Identifier_eq tellee (nick bot)) eqn:Hbot; [discriminate |].
  destruct (Identifier_eq (trigger_nick trigger) tellee) eqn:Hself.
  - simpl. discriminate.
  - rewrite (Identifier_eq_sym (nick bot)), Hbot. simpl.
    destruct (Identifier_eq "me" tellee) eqn:Hme; simpl; [| discriminate].
    intros _. exists (String c g3). fold tellee. cbn zeta.
    rewrite Identifier_eq_sym in Hme, Hself.
    apply Identifier_eq_true in Hme.
    apply Identifier_eq_false in Hbot, Hself. tauto.
Qed.

(** X9. Whenever [f_remind] does not answer "I'll pass that on when ... is
    around.", it has changed neither the index nor the file. *)
Theorem f_remind_changes_only_when_it_confirms
        (bot : Bot) (trigger : Trigger) (timenow : string) :
  (forall tellee,
      snd (f_remind bot trigger timenow)
      <> [Reply ("I'll pass that on when " ++ tellee ++ " is around.")]) ->
  fst (f_remind bot trigger timenow) = bot.
Proof.
  intros Hno.
  destruct (f_remind_outcome bot trigger timenow)
    as [H | [g3 [_ [_ [_ [_ Hrun]]]]]]; [exact H |].
  exfalso. apply (Hno (rstrip_chars ".,:;" g3)). now rewrite Hrun.
Qed.

Lemma rstrip_by_last (p : ascii -> bool) (s : string) (c : ascii) :
  endswith (rstrip_by p s) (String c "") = true -> p c = false.
Proof.
  induction s as [|a s IH]; [discriminate |]. cbn [rstrip_by].
  destruct (rstrip_by p s) as [|d r] eqn:Hr.
  - destruct (p a) eqn:Ha; [discriminate |].
    cbn [endswith]. rewrite orb_true_iff, String.eqb_eq.
    intros [[= ->] | H]; [exact Ha | discriminate].
  - cbn [endswith] in *. rewrite orb_true_iff, String.eqb_eq.
    intros [H | H]; [discriminate | exact (IH H)].
Qed.

Lemma append_reminder_keys (key : string) (r : reminder) (data : index)
      (k : string) :
  In k (Dict.keys (append_reminder key r data)) ->
  In k (Dict.keys data) \/ k = key.
Proof.
  destruct (Dict.get key data) as [l|] eqn:Hget.
  - rewrite (append_reminder_present _ _ _ _ Hget).
    rewrite (keys_set_present _ _ _ _ Hget). now left.
  - rewrite (append_reminder_absent _ _ _ Hget). unfold Dict.keys.
    rewrite map_app. intros H. apply in_app_or in H.
    destruct H as [H | [<- | []]]; [now left | now right].
Qed.

(** X10. A key that [f_remind] adds to the index never ends in one of the
    characters [.,:;]: they were stripped from the recipient. *)
Theorem f_remind_key_has_no_trailing_punctuation
        (bot : Bot) (trigger : Trigger) (timenow k : string) :
  In k (Dict.keys (reminders (fst (f_remind bot trigger timenow)))) ->
  In k (Dict.keys (reminders bot))
  \/ forall c, char_in c ".,:;" = true -> endswith k (String c "") = false.
Proof.
  destruct (f_remind_outcome bot trigger timenow)
    as [-> | [g3 [_ [_ [_ [_ Hrun]]]]]]; [now left |].
  rewrite Hrun. cbn [fst reminders]. intros Hin.
  apply append_reminder_keys in Hin. destruct Hin as [Hin | ->]; [now left |].
  destruct (filed_key_cases (rstrip_chars ".,:;" g3) (reminders bot))
    as [Hin | [-> _]]; [now left |].
  right. intros c Hc.
  destruct (endswith (rstrip_chars ".,:;" g3) (String c "")) eqn:E;
    [| reflexivity].
  apply rstrip_by_last in E. congruence.
Qed.

End EnqueueMore.

Lemma f_remind_too_long_witness :
  f_remind Examples.bot_five
           (Examples.tell_command "alice" "abcdefghijklmnopqrstuvwxyz12345,"
                                  "abcdefghijklmnopqrstuvwxyz12345, hello")
           "03 Nov 12:00Z"
  = (Examples.bot_five, [Reply "That nickname is too long."]).
Proof.
  apply (f_remind_too_long _ _ _ "abcdefghijklmnopqrstuvwxyz12345,"
           (dump_reminders Examples.five_for_bob)).
  - reflexivity.
  - vm_compute; discriminate.
  - reflexivity.
  - vm_compute; lia.
Defined.

Lemma f_remind_monty_means_me_witness :
  exists g3,
    let tellee := rstrip_chars ".,:;" g3 in
    group3 (Examples.tell_command "alice" "ME:" "ME: remember milk") = Some g3
    /\ ci_equal tellee "me"
    /\ ~ ci_equal tellee (nick Examples.bot_five)
    /\ ~ ci_equal tellee "alice"
    /\ fst (f_remind Examples.bot_five
                     (Examples.tell_command "alice" "ME:" "ME: remember milk")
                     "03 Nov 12:00Z")
       = Examples.bot_five.
Proof.
  apply (f_remind_monty_means_me Examples.bot_five
           (Examples.tell_command "alice" "ME:" "ME: remember milk")
           "03 Nov 12:00Z").
  reflexivity.
Defined.

Lemma f_remind_changes_only_when_it_confirms_witness :
  fst (f_remind Examples.bot_five (mkTrigger "alice" "#chan" "tell" "" None)
                "03 Nov 12:00Z")
  = Examples.bot_five.
Proof.
  apply f_remind_changes_only_when_it_confirms.
  intros tellee. simpl. discriminate.
Defined.

Lemma f_remind_key_has_no_trailing_punctuation_witness :
  In "carol" (Dict.keys (reminders Examples.bot_five))
  \/ forall c, char_in c ".,:;" = true -> endswith "carol" (String c "") = false.
Proof.
  apply (f_remind_key_has_no_trailing_punctuation Examples.bot_five
           (Examples.tell_command "alice" "carol;:" "carol;: lunch?")
           "03 Nov 12:00Z").
  vm_compute. tauto.
Defined.

(** ** More on the matcher *)
Section MatcherMore.

Lemma lower_char_star (c : ascii) :
  Ascii.eqb (lower_char c) "*" = Ascii.eqb c "*".
Proof. destruct c as [[] [] [] [] [] [] [] []]; reflexivity. Qed.

Lemma lower_char_colon (c : ascii) :
  Ascii.eqb (lower_char c) ":" = Ascii.eqb c ":".
Proof. destruct c as [[] [] [] [] [] [] [] []]; reflexivity. Qed.

Lemma endswith_lower (c : ascii) :
  (forall d, Ascii.eqb (lower_char d) c = Ascii.eqb d c) ->
  forall s, endswith (lower s) (String c "") = endswith s (String c "").
Proof.
  intros Hc s. induction s as [|a s IH]; [reflexivity |].
  cbn [lower endswith]. rewrite IH. f_equal.
  cbn [String.eqb]. rewrite Hc. now destruct s.
Qed.


Lemma get_filter_by_key {V : Type} (g : string -> bool) (k : string)
      (d : @Dict.t V) :
  Dict.get k (filter (fun item => g (fst item)) d)
  = if g k then Dict.get k d else None.
Proof.
  induction d as [|[k' v] d IH]; cbn [filter fst]; [now destruct (g k) |].
  destruct (g k') eqn:Hk'; cbn [Dict.get];
    destruct (String.eqb k' k) eqn:E; try exact IH.
  - apply String.eqb_eq in E. subst k'. now rewrite Hk'.
  - apply String.eqb_eq in E. subst k'. rewrite IH. now rewrite Hk'.
Qed.



(** X12. What a run of [message] does to each key, the file being there: a
    key that matches the speaker is no longer in the index, every other key
    has the list it had. *)
Theorem message_settles_each_key
        (bot : Bot) (trigger : Trigger) (today file k : string) :
  tell_file bot = Some file ->
  NoDup (Dict.keys (reminders bot)) ->
  Dict.get k (reminders (fst (message bot trigger today)))
  = if key_matches k (trigger_nick trigger)
    then None
    else Dict.get k (reminders bot).
Proof.
  intros Hfile Hnodup. rewrite (message_index bot trigger today file Hfile Hnodup).
  rewrite (get_filter_by_key
             (fun key => negb (key_matches key (trigger_nick trigger)))).
  now destruct (key_matches k (trigger_nick trigger)).
Qed.

Lemma filter_idem {A : Type} (f : A -> bool) (l : list A) :
  filter f (filter f l) = filter f l.
Proof.
  rewrite filter_twice. apply filter_ext. intros a. now destruct (f a).
Qed.

Lemma flat_map_all_nil {A B : Type} (f : A -> list B) (l : list A) :
  (forall x, In x l -> f x = []) -> flat_map f l = [].
Proof.
  induction l as [|x l IH]; intros H; simpl; [reflexivity |].
  rewrite (H x) by now left. apply IH. intros y Hy. apply H. now right.
Qed.

(** X13. Reminders are delivered once: when the same speaker speaks again
    right after a run of [message], the second run says nothing and leaves
    the index and the file as the first left them. *)
Theorem message_delivers_once
        (bot : Bot) (trigger again : Trigger) (today later file : string) :
  tell_file bot = Some file ->
  NoDup (Dict.keys (reminders bot)) ->
  trigger_nick again = trigger_nick trigger ->
  message (fst (message bot trigger today)) again later
  = (fst (message bot trigger today), []).
Proof.
  intros Hfile Hnodup Hsame.
  pose proof (message_keeps_keys_unique bot trigger today Hnodup) as Hnodup1.
  pose proof (message_index bot trigger today file Hfile Hnodup) as Hidx.
  destruct (message_running bot trigger today file Hfile) as [data [Hrun _]].
  rewrite Hrun in *. cbn [fst reminders] in *.
  set (bot1 := mkBot (nick bot) (Some (dump_reminders data)) data) in *.
  pose proof (message_index bot1 again later _ eq_refl Hnodup1) as Hidx2.
  pose proof (message_lines bot1 again later _ eq_refl Hnodup1) as Hlines.
  destruct (message_running bot1 again later _ eq_refl) as [data2 [Hrun2 _]].
  rewrite Hrun2 in *. cbn [fst reminders nick] in *.
  assert (Hdata : data2 = data).
  { rewrite Hidx2. unfold bot1. cbn [reminders]. rewrite Hidx, Hsame.
    apply filter_idem. }
  assert (Hnone : message_collected bot1 again later = []).
  { rewrite Hlines. unfold bot1. cbn [reminders].
    apply flat_map_all_nil. intros key Hin.
    apply (proj1 (remkeys_in _ _)) in Hin.
    unfold lines_for. rewrite Hsame, Hidx in *.
    unfold Dict.keys in Hin. apply in_map_iff in Hin.
    destruct Hin as [[key' v] [Hkey Hin]]. simpl in Hkey. subst key'.
    apply filter_In in Hin. destruct Hin as [_ Hno]. simpl in Hno.
    apply negb_true_iff in Hno. now rewrite Hno. }
  rewrite Hnone, Hdata. reflexivity.
Qed.

(** X14. [getReminders] on any key, in the index or not: it never says the
    filler; it returns the lines of the reminders stored under the key, none
    for an absent key; afterwards the key is not in the index, the other keys
    are as before, and an index that did not have the key is unchanged. *)
Theorem getReminders_any_key
        (channel key tellee today : string) (data : index) :
  exists data',
    getReminders channel key tellee today data
    = (map (format_reminder tellee today) (pending key data), data', [])
    /\ Dict.get key data' = None
    /\ (forall k, k <> key -> Dict.get k data' = Dict.get k data)
    /\ (Dict.get key data = None -> data' = data).
Proof.
  exists (filter (Dict.without key) data). rewrite getReminders_spec.
  split; [reflexivity |]. split; [apply get_without_same |].
  split; [intros k Hk; now apply get_without_other |].
  apply without_absent.
Qed.

End MatcherMore.

Lemma five_for_bob_unique_keys : NoDup (Dict.keys (reminders Examples.bot_five)).
Proof. repeat constructor; simpl; intuition discriminate. Qed.


Lemma message_settles_each_key_witness :
  let after := reminders (fst (message Examples.bot_five
                                       (Examples.spoken "BOB" "hello") "03 Nov")) in
  Dict.get "bob" after = None
  /\ Dict.get "al" after = Some [("dave", "tell", "03 Nov 11:00Z", "ping")].
Proof.
  intros after. split.
  - exact (message_settles_each_key Examples.bot_five
             (Examples.spoken "BOB" "hello") "03 Nov"
             (dump_reminders Examples.five_for_bob) "bob"
             eq_refl five_for_bob_unique_keys).
  - exact (message_settles_each_key Examples.bot_five
             (Examples.spoken "BOB" "hello") "03 Nov"
             (dump_reminders Examples.five_for_bob) "al"
             eq_refl five_for_bob_unique_keys).
Defined.

Lemma message_delivers_once_witness :
  let first := message Examples.bot_five (Examples.spoken "bob" "hello") "03 Nov" in
  List.length (snd first) = 6
  /\ message (fst first) (Examples.spoken "bob" "anything for me?") "04 Nov"
     = (fst first, []).
Proof.
  intros first. split; [reflexivity |].
  exact (message_delivers_once Examples.bot_five
           (Examples.spoken "bob" "hello")
           (Examples.spoken "bob" "anything for me?") "03 Nov" "04 Nov"
           (dump_reminders Examples.five_for_bob)
           eq_refl five_for_bob_unique_keys eq_refl).
Defined.

(** ** Lines and keys *)
Section LinesAndKeys.

Lemma startswith_app (a b : string) : startswith (a ++ b) a = true.
Proof. apply startswith_spec. now exists b. Qed.

Lemma drop_app (a b : string) (c : ascii) :
  drop (String.length a + 1) (a ++ String c b) = b.
Proof. induction a as [|x a IH]; simpl; [reflexivity | exact IH]. Qed.

Lemma drop_all (a : string) : drop (String.length a + 1) a = "".
Proof. induction a as [|x a IH]; simpl; [reflexivity | exact IH]. Qed.

(** X15. The date of today is cut from the line with the character after
    it, whatever that character is: a timestamp made of today's date, one
    character and the rest shows as the rest; a timestamp that is today's
    date and nothing more shows as nothing. *)
Theorem format_reminder_cuts_today
        (tellee today teller verb msg rest : string) (c : ascii) :
  format_reminder tellee today (teller, verb, today ++ String c rest, msg)
  = tellee ++ ": " ++ rest ++ " <" ++ teller ++ "> " ++ verb ++ " "
           ++ tellee ++ " " ++ msg
  /\ format_reminder tellee today (teller, verb, today, msg)
     = tellee ++ ":  <" ++ teller ++ "> " ++ verb ++ " " ++ tellee ++ " " ++ msg.
Proof.
  unfold format_reminder. rewrite startswith_app, drop_app.
  replace (startswith today today) with true
    by (symmetry; apply startswith_spec; exists ""; clear;
        induction today as [|x t IH]; simpl; [reflexivity | now rewrite <- IH]).
  rewrite drop_all. split; reflexivity.
Qed.

Lemma lower_char_idem (c : ascii) : lower_char (lower_char c) = lower_char c.
Proof. destruct c as [[] [] [] [] [] [] [] []]; reflexivity. Qed.

Lemma lower_idem (s : string) : lower (lower s) = lower s.
Proof.
  induction s as [|c s IH]; simpl; [reflexivity |].
  now rewrite lower_char_idem, IH.
Qed.

(** X16. The matcher does not see the case of letters, in the key or in the
    nickname: a key and its lower-case form match the same nicknames, a
    nickname and its lower-case form are matched by the same keys. *)
Theorem key_matches_ignores_case (key nickname : string) :
  key_matches (lower key) nickname = key_matches key nickname
  /\ key_matches key (lower nickname) = key_matches key nickname.
Proof.
  unfold key_matches. split.
  - rewrite (endswith_lower "*" lower_char_star).
    rewrite (endswith_lower ":" lower_char_colon).
    now rewrite lower_idem.
  - now rewrite lower_idem.
Qed.

End LinesAndKeys.

(** ** The index stays well keyed *)
Section WellKeyed.



End WellKeyed.


(** ** The message of a request *)
Section MessageBody.




End MessageBody.


(** ** Delivery key by key *)
Section DeliveryOrder.

(** X19. The lines [message] collects, the file being there: the keys of
    the index are gone through once each; each key that matches the speaker
    gives the lines of all its reminders together, in the order they are
    stored in, and the other keys give nothing. *)
Theorem message_collects_key_by_key
        (bot : Bot) (trigger : Trigger) (today file : string) :
  tell_file bot = Some file ->
  NoDup (Dict.keys (reminders bot)) ->
  exists remkeys,
    Permutation remkeys (Dict.keys (reminders bot))
    /\ message_collected bot trigger today
       = flat_map
           (fun key =>
              if key_matches key (trigger_nick trigger)
              then map (format_reminder (trigger_nick trigger) today)
                       (pending key (reminders bot))
              else [])
           remkeys.
Proof.
  intros Hfile Hnodup. exists (rev (sorted (Dict.keys (reminders bot)))).
  split; [apply remkeys_perm |].
  now rewrite (message_lines bot trigger today file Hfile Hnodup).
Qed.

End DeliveryOrder.

Lemma message_collects_key_by_key_witness :
  exists remkeys,
    Permutation remkeys (Dict.keys (reminders Examples.bot_five))
    /\ message_collected Examples.bot_five (Examples.spoken "al" "hi") "03 Nov"
       = flat_map
           (fun key =>
              if key_matches key "al"
              then map (format_reminder "al" "03 Nov")
                       (pending key (reminders Examples.bot_five))
              else [])
           remkeys.
Proof.
  exact (message_collects_key_by_key
           Examples.bot_five (Examples.spoken "al" "hi") "03 Nov"
           (dump_reminders Examples.five_for_bob) eq_refl
           five_for_bob_unique_keys).
Defined.

Lemma setup_settles_witness :
  let host := mkHost "sopel" (Some Examples.short_line_file) false
                     (Some Examples.five_for_bob) in
  memory_reminders (setup host) = Some Examples.five_for_bob
  /\ host_file (setup host) = Some Examples.short_line_file
  /\ setup (setup host) = setup host.
Proof.
  intros host.
  destruct (setup_settles host) as [Hsame [_ [Hindex Hfile]]].
  split; [now apply Hindex |]. split; [now apply Hfile | exact Hsame].
Defined.

Lemma f_remind_answers_witness :
  snd (f_remind (mkBot "sopel" None [])
                (Examples.tell_command "alice" "bob" "bob hello")
                "03 Nov 10:00Z")
  = [].
Proof.
  apply (proj2 (proj2 (f_remind_answers
                         (mkBot "sopel" None [])
                         (Examples.tell_command "alice" "bob" "bob hello")
                         "03 Nov 10:00Z"))).
  exists "bob". repeat split; discriminate.
Defined.

Lemma getReminders_any_key_witness :
  exists data',
    getReminders "#chan" "nobody" "zoe" "03 Nov" Examples.five_for_bob
    = ([], data', [])
    /\ data' = Examples.five_for_bob.
Proof.
  destruct (getReminders_any_key "#chan" "nobody" "zoe" "03 Nov"
              Examples.five_for_bob) as [data' [Hrun [_ [_ Hsame]]]].
  exists data'. split; [exact Hrun | now apply Hsame].
Defined.
